(** * Smart Redirect Processor: a shallow embedding of [processHttpMessage]

    The extension (smart_redirect_processor.py) is a Burp HTTP listener.  For
    every response passing through the proxy it looks at the status line and
    the body size and, for an oversized 3xx response, rewrites the status
    line, strips the "Object moved" HTML stub, inflates an embedded GZIP
    stream when the content is JavaScript, and reports the change.

    Header lines are Python text: lists of characters, here the code
    points 0-255.  The body is a Python byte string: a list of bytes.  The
    host objects ([messageInfo], [callbacks]) are modelled by the trace of
    the calls made on them; the method returns nothing, so what it decides
    is read off that trace. *)

From Stdlib Require Import Ascii String.
From Stdlib Require Import Strings.Byte.
From Stdlib Require Import List Bool Arith ZArith NArith Lia.
Import ListNotations.

Local Open Scope list_scope.

Definition text := list ascii.
Definition bytes := list byte.

(** Literals: [str "abc"] is the text 'abc', [b "abc"] the bytes b'abc'. *)
Definition str (s : string) : text := list_ascii_of_string s.
Definition b (s : string) : bytes := list_byte_of_string s.

(** ** Python sequence methods *)

Section Sequences.
Context {A : Type}.
Variable eq_dec : forall x y : A, {x = y} + {x <> y}.

(** [s.startswith(p)] *)
Fixpoint startswith (p s : list A) : bool :=
  match p, s with
  | [], _ => true
  | _ :: _, [] => false
  | x :: p', y :: s' => if eq_dec x y then startswith p' s' else false
  end.

(** [s.find(sub)]: the lowest index at which [sub] occurs, [None] for -1. *)
Fixpoint find (sub s : list A) : option nat :=
  if startswith sub s then Some 0
  else match s with
       | [] => None
       | _ :: s' => option_map S (find sub s')
       end.

(** [sub in s] *)
Definition contains (sub s : list A) : bool :=
  match find sub s with Some _ => true | None => false end.

(** [s.partition(sep)] for a one-element separator: the part before the
    first [sep] and the part after it, [None] when [sep] does not occur. *)
Fixpoint partition (sep : A) (s : list A) : option (list A * list A) :=
  match s with
  | [] => None
  | c :: s' =>
      if eq_dec c sep then Some ([], s')
      else match partition sep s' with
           | Some (before, after) => Some (c :: before, after)
           | None => None
           end
  end.

(** [s.split(sep, maxsplit)] for a one-element separator: at most
    [maxsplit] cuts, empty parts are kept. *)
Fixpoint split (sep : A) (maxsplit : nat) (s : list A) : list (list A) :=
  match maxsplit with
  | O => [s]
  | S n =>
      match partition sep s with
      | Some (before, after) => before :: split sep n after
      | None => [s]
      end
  end.

(** The regular expression [lit1 .*? lit2] in DOTALL mode, anchored at the
    head of [s]: after [lit1] the lazy [.*?] stops at the first place where
    [lit2] follows.  The result is what remains after the match. *)
Fixpoint after_first (lit s : list A) : option (list A) :=
  if startswith lit s then Some (skipn (length lit) s)
  else match s with
       | [] => None
       | _ :: s' => after_first lit s'
       end.

Definition match_here (lit1 lit2 s : list A) : option (list A) :=
  if startswith lit1 s then after_first lit2 (skipn (length lit1) s)
  else None.

(** [regex.search(s)]: is there a position where the pattern matches? *)
Fixpoint regex_search (lit1 lit2 s : list A) : bool :=
  match match_here lit1 lit2 s with
  | Some _ => true
  | None => match s with
            | [] => false
            | _ :: s' => regex_search lit1 lit2 s'
            end
  end.

(** [regex.sub(b'', s, 1)]: the leftmost match is deleted, the rest of the
    subject is copied. *)
Fixpoint regex_sub_empty (lit1 lit2 s : list A) : list A :=
  match match_here lit1 lit2 s with
  | Some rest => rest
  | None => match s with
            | [] => []
            | c :: s' => c :: regex_sub_empty lit1 lit2 s'
            end
  end.
End Sequences.

(** ** Text *)

Definition tstartswith := startswith ascii_dec.
Definition tcontains := contains ascii_dec.

(** [c.lower()] for a character of a header line.  Burp hands the header
    lines over as strings of the code points 0-255; the upper-case letters
    among them are A-Z and the Latin-1 letters U+00C0-U+00DE (U+00D7, the
    multiplication sign, is not a letter). *)
Definition lower_char (c : ascii) : ascii :=
  let n := nat_of_ascii c in
  if ((65 <=? n) && (n <=? 90))
     || ((192 <=? n) && (n <=? 222) && negb (n =? 215))
  then ascii_of_nat (n + 32)
  else c.

Definition lower (s : text) : text := map lower_char s.

Definition is_digit (c : ascii) : bool :=
  let n := nat_of_ascii c in (48 <=? n) && (n <=? 57).

Definition newline : ascii := ascii_of_nat 10.

(** The pattern [' 3\d{2} .+'] anchored at the head of [s].  The greedy [.+]
    takes at least one character and runs to the end of the line ([.] does
    not match a newline).  The result is what remains after the match. *)
Fixpoint rest_of_line (s : text) : text :=
  match s with
  | [] => []
  | c :: s' => if Ascii.eqb c newline then s else rest_of_line s'
  end.

Definition match_status_here (s : text) : option text :=
  match s with
  | sp1 :: three :: d1 :: d2 :: sp2 :: c :: s' =>
      if Ascii.eqb sp1 " " && Ascii.eqb three "3" && is_digit d1 && is_digit d2
         && Ascii.eqb sp2 " " && negb (Ascii.eqb c newline)
      then Some (rest_of_line s')
      else None
  | _ => None
  end.

(** [re.sub(r' 3\d{2} .+', ' 200 OK', status_line, 1)] *)
Fixpoint rewrite_status (status_line : text) : text :=
  match match_status_here status_line with
  | Some rest => str " 200 OK" ++ rest
  | None => match status_line with
            | [] => []
            | c :: s' => c :: rewrite_status s'
            end
  end.

(** ** Body *)

Definition GZIP_MAGIC_NUMBER : bytes := [x1f; x8b].

Definition STUB_OPEN : bytes :=
  b "<html><head><title>Object moved</title></head><body>".
Definition STUB_CLOSE : bytes := b "</body></html>".

(** [html_redirect_regex]: [(?s)<html>...<body>.*?</body></html>] *)
Definition html_redirect_search : bytes -> bool :=
  regex_search Byte.byte_eq_dec STUB_OPEN STUB_CLOSE.
Definition html_redirect_sub : bytes -> bytes :=
  regex_sub_empty Byte.byte_eq_dec STUB_OPEN STUB_CLOSE.

(** Action 2 (lines 70-73): the Carver. *)
Definition carve (new_body : bytes) : bytes :=
  if html_redirect_search new_body then html_redirect_sub new_body
  else new_body.

(** ** Exceptions and the gzip library *)

(** What matters about an exception is whether [except IOError] catches it.
    [OtherException] stands for every class that is not derived from
    [IOError]: [zlib.error], [EOFError], [struct.error], ... *)
Inductive exception :=
| IOError (message : string)
| OtherException (class_name message : string).

(** The result of [gzip.GzipFile(fileobj=io.BytesIO(data)).read()]. *)
Inductive read_result :=
| Data (decompressed_body : bytes)
| Raises (e : exception).

(** ** The extension *)

(** Lines printed to the extension console. *)
Inductive diagnostic :=
| StatusChanged (status_line : text)
| StubRemoved
| GzipFound (start_index : nat)
| Decompressed
| GzipFailed (e : exception).

(** The local variables after the main logic block (line 106). *)
Record locals := {
  new_headers : list text;
  new_body : bytes;
  modified : bool
}.

(** Calls on the host objects and on the console, in the order they are
    made.  [Print] records the line by the values it is formatted from;
    [SetResponse headers body] is
    [messageInfo.setResponse(helpers.buildHttpMessage(headers, body))]. *)
Inductive effect :=
| Print (d : diagnostic)
| SetResponse (headers : list text) (body : bytes)
| SetHighlight (color : text)
| SetComment (comment : text)
| IssueAlert (message : text).

(** The parsed view of [messageInfo] (lines 42-46 and 115-116):
    [getHeaders()] with the status line first, the bytes from
    [getBodyOffset()] on, and the URL of the request. *)
Record message := {
  original_headers : list text;
  original_body_bytes : bytes;
  url : text
}.

(** What one call does: the calls on the host, in order, and the exception
    that left the method, if one did. *)
Record outcome := {
  effects : list effect;
  raised : option exception
}.

Definition is_content_type_js (header : text) : bool :=
  tstartswith (str "content-type:") (lower header)
  && tcontains (str "application/x-javascript") (lower header).

Definition is_content_encoding (h : text) : bool :=
  tstartswith (str "content-encoding:") (lower h).

(** What is printed before the decompression stage (lines 67 and 73). *)
Definition first_prints (status_line : text) (body : bytes)
  : list diagnostic :=
  StatusChanged status_line
  :: (if html_redirect_search body then [StubRemoved] else []).

(** The filter of line 99. *)
Definition keep (h : text) : bool := negb (is_content_encoding h).

(** The loop of lines 76-80. *)
Definition is_js_target (new_headers : list text) : bool :=
  existsb is_content_type_js new_headers.

(** The condition of line 59. *)
Definition is_candidate (status_line : text) (new_body : bytes) : bool :=
  let parts := split ascii_dec " "%char 2 status_line in
  (1 <? length parts)
  && tstartswith (str "3") (nth 1 parts [])
  && (1000 <? length new_body).

Section Extension.
(** [callbacks.TOOL_PROXY] and the gzip reader belong to the host and to
    the Python library. *)
Variable TOOL_PROXY : Z.
Variable GzipFile_read : bytes -> read_result.

(** Lines 82-105, from the cleaned body on. *)
Definition decompress_js (headers1 : list text) (body1 : bytes)
  : list diagnostic * (exception + locals) :=
  match find Byte.byte_eq_dec GZIP_MAGIC_NUMBER body1 with
  | Some start_index =>
      let gzipped_data_bytes := skipn start_index body1 in
      match GzipFile_read gzipped_data_bytes with
      | Data decompressed_body =>
          ([GzipFound start_index; Decompressed],
           inr {| new_headers :=
                    filter (fun h => negb (is_content_encoding h)) headers1;
                  new_body := decompressed_body;
                  modified := true |})
      | Raises (IOError msg) =>
          ([GzipFound start_index; GzipFailed (IOError msg)],
           inr {| new_headers := headers1;
                  new_body := body1;
                  modified := false |})
      | Raises e => ([GzipFound start_index], inl e)
      end
  | None =>
      ([], inr {| new_headers := headers1;
                  new_body := body1;
                  modified := true |})
  end.

(** Lines 49-105. *)
Definition main_logic (headers0 : list text) (body0 : bytes)
  : list diagnostic * (exception + locals) :=
  let untouched :=
    ([], inr {| new_headers := headers0;
                new_body := body0;
                modified := false |}) in
  match headers0 with
  | [] => untouched
  | status_line :: others =>
      if is_candidate status_line body0 then
        let new_status_line := rewrite_status status_line in
        let headers1 := new_status_line :: others in
        let found := html_redirect_search body0 in
        let body1 := carve body0 in
        let printed :=
          StatusChanged status_line :: (if found then [StubRemoved] else []) in
        if is_js_target headers1 then
          let (more, result) := decompress_js headers1 body1 in
          (printed ++ more, result)
        else
          (printed, inr {| new_headers := headers1;
                           new_body := body1;
                           modified := true |})
      else untouched
  end.

(** Lines 108-124. *)
Definition notify (l : locals) (u : text) : list effect :=
  if modified l then
    [ SetResponse (new_headers l) (new_body l);
      SetHighlight (str "cyan");
      SetComment (str "Redirect modified and decompressed for URL: " ++ u);
      IssueAlert (str "Modified response for URL: " ++ u) ]
  else [].

Definition processHttpMessage
  (toolFlag : Z) (messageIsRequest : bool) (messageInfo : message) : outcome :=
  if negb messageIsRequest && (toolFlag =? TOOL_PROXY)%Z then
    match main_logic (original_headers messageInfo)
                     (original_body_bytes messageInfo) with
    | (printed, inl e) =>
        {| effects := map Print printed; raised := Some e |}
    | (printed, inr l) =>
        {| effects := map Print printed ++ notify l (url messageInfo);
           raised := None |}
    end
  else {| effects := []; raised := None |}.

(** A response passing through the proxy. *)
Definition process (messageInfo : message) : outcome :=
  processHttpMessage TOOL_PROXY false messageInfo.

(** The five ways through the main logic block: what was printed, and
    either the local variables at line 107 or the exception that escaped. *)
Inductive path (headers0 : list text) (body0 : bytes)
  : list diagnostic * (exception + locals) -> Prop :=
| NotCandidate :
    headers0 = []
    \/ (exists status_line others,
          headers0 = status_line :: others
          /\ is_candidate status_line body0 = false) ->
    path headers0 body0
      ([], inr {| new_headers := headers0;
                  new_body := body0;
                  modified := false |})
| Skipped status_line others :
    headers0 = status_line :: others ->
    is_candidate status_line body0 = true ->
    is_js_target (rewrite_status status_line :: others) = false
    \/ find Byte.byte_eq_dec GZIP_MAGIC_NUMBER (carve body0) = None ->
    path headers0 body0
      (first_prints status_line body0,
       inr {| new_headers := rewrite_status status_line :: others;
              new_body := carve body0;
              modified := true |})
| Succeeded status_line others k data :
    headers0 = status_line :: others ->
    is_candidate status_line body0 = true ->
    is_js_target (rewrite_status status_line :: others) = true ->
    find Byte.byte_eq_dec GZIP_MAGIC_NUMBER (carve body0) = Some k ->
    GzipFile_read (skipn k (carve body0)) = Data data ->
    path headers0 body0
      (first_prints status_line body0 ++ [GzipFound k; Decompressed],
       inr {| new_headers :=
                filter keep (rewrite_status status_line :: others);
              new_body := data;
              modified := true |})
| FailedCaught status_line others k msg :
    headers0 = status_line :: others ->
    is_candidate status_line body0 = true ->
    is_js_target (rewrite_status status_line :: others) = true ->
    find Byte.byte_eq_dec GZIP_MAGIC_NUMBER (carve body0) = Some k ->
    GzipFile_read (skipn k (carve body0)) = Raises (IOError msg) ->
    path headers0 body0
      (first_prints status_line body0
       ++ [GzipFound k; GzipFailed (IOError msg)],
       inr {| new_headers := rewrite_status status_line :: others;
              new_body := carve body0;
              modified := false |})
| FailedUncaught status_line others k class msg :
    headers0 = status_line :: others ->
    is_candidate status_line body0 = true ->
    is_js_target (rewrite_status status_line :: others) = true ->
    find Byte.byte_eq_dec GZIP_MAGIC_NUMBER (carve body0) = Some k ->
    GzipFile_read (skipn k (carve body0)) = Raises (OtherException class msg) ->
    path headers0 body0
      (first_prints status_line body0 ++ [GzipFound k],
       inl (OtherException class msg)).
End Extension.

(** ** What the host observes *)

(** The decision of the pipeline is what the call does to the message:
    [Rewritten] when [setResponse] installs a new header list and body,
    [Unchanged] when the message is left alone. *)
Inductive RewriteDecision :=
| Unchanged
| Rewritten (headers : list text) (body : bytes).

Fixpoint decision_of (es : list effect) : RewriteDecision :=
  match es with
  | [] => Unchanged
  | SetResponse headers body :: _ => Rewritten headers body
  | _ :: es' => decision_of es'
  end.

Definition decision (o : outcome) : RewriteDecision := decision_of (effects o).

(** The status line, headers and body the host holds after the call. *)
Definition final_response (messageInfo : message) (o : outcome)
  : list text * bytes :=
  match decision o with
  | Rewritten headers body => (headers, body)
  | Unchanged => (original_headers messageInfo, original_body_bytes messageInfo)
  end.

(** Highlight, comment and alert, in the order they are emitted. *)
Definition is_notification (e : effect) : bool :=
  match e with
  | SetHighlight _ | SetComment _ | IssueAlert _ => true
  | _ => false
  end.

Definition notifications (o : outcome) : list effect :=
  filter is_notification (effects o).

Definition notification_for (u : text) : list effect :=
  [ SetHighlight (str "cyan");
    SetComment (str "Redirect modified and decompressed for URL: " ++ u);
    IssueAlert (str "Modified response for URL: " ++ u) ].

Definition console (o : outcome) : list diagnostic :=
  flat_map (fun e => match e with Print d => [d] | _ => [] end) (effects o).

(** The message the host holds after the call, as the next listener or a
    second pass would see it. *)
Definition installed (messageInfo : message) (o : outcome) : message :=
  {| original_headers := fst (final_response messageInfo o);
     original_body_bytes := snd (final_response messageInfo o);
     url := url messageInfo |}.

(** Decompression occurred when the success line was printed (line 100). *)
Definition decompression_occurred (o : outcome) : Prop :=
  In Decompressed (console o).

(** The decompression stage fails on the header list [headers1] the loop
    inspects and the body [body0]: the signal is there, the magic number is
    found in the carved body and the reader raises. *)
Definition inflation_fails (GzipFile_read : bytes -> read_result)
  (headers1 : list text) (body0 : bytes) : Prop :=
  is_js_target headers1 = true
  /\ exists start_index e,
       find Byte.byte_eq_dec GZIP_MAGIC_NUMBER (carve body0) = Some start_index
       /\ GzipFile_read (skipn start_index (carve body0)) = Raises e.

(** ** Notions of the specification *)

(** The body contains the stub pattern: the opening sequence, any bytes,
    the closing sequence. *)
Definition contains_stub (body : bytes) : Prop :=
  exists before interior after,
    body = before ++ STUB_OPEN ++ interior ++ STUB_CLOSE ++ after.

(** A stub: one occurrence of the pattern, ending at its first closing
    sequence. *)
Definition is_stub (stub : bytes) : Prop :=
  exists interior,
    stub = STUB_OPEN ++ interior ++ STUB_CLOSE
    /\ find Byte.byte_eq_dec STUB_CLOSE (interior ++ STUB_CLOSE)
       = Some (length interior).

(** A header line whose name, the text before its first colon, is [name]
    up to case. *)
Definition header_named (name : text) (h : text) : Prop :=
  exists n value,
    h = n ++ ":"%char :: value /\ ~ In ":"%char n /\ lower n = name.

(** Whitespace-delimited tokens of a line: the maximal runs of characters
    that are not whitespace. *)
Definition is_whitespace (c : ascii) : bool :=
  let n := nat_of_ascii c in (n =? 32) || ((9 <=? n) && (n <=? 13)).

Fixpoint tokens_from (current : text) (s : text) : list text :=
  match s with
  | [] => match current with [] => [] | _ => [rev current] end
  | c :: s' =>
      if is_whitespace c
      then match current with
           | [] => tokens_from [] s'
           | _ => rev current :: tokens_from [] s'
           end
      else tokens_from (c :: current) s'
  end.

Definition whitespace_tokens (s : text) : list text := tokens_from [] s.

(** The status line holds a segment made of a space, the digit 3, two more
    digits, a space and at least one further character. *)
Definition has_status_segment (status_line : text) : Prop :=
  exists before d1 d2 c after,
    status_line =
      before ++ " "%char :: "3"%char :: d1 :: d2 :: " "%char :: c :: after
    /\ is_digit d1 = true /\ is_digit d2 = true.

(** ** A reference gzip reader

    [gzip.GzipFile.read] belongs to the Python library.  The theorems below
    hold for every reader; the examples run the extension with this one: a
    decoder of RFC 1952 files (deflate streams per RFC 1951: stored, fixed
    and dynamic Huffman blocks).  Failures are split into exception classes
    as CPython's gzip module does: [IOError] for the header and trailer
    checks, [zlib.error] for malformed deflate data, [EOFError] for a
    stream that ends early. *)
Module Gzip.

Definition zlib_error (msg : string) : exception :=
  OtherException "zlib.error" msg.
Definition EOFError : exception :=
  OtherException "EOFError"
    "Compressed file ended before the end-of-stream marker was reached".

Definition result (A : Type) : Type := (exception + A)%type.

Definition bind {A B} (r : result A) (k : A -> result B) : result B :=
  match r with
  | inl e => inl e
  | inr x => k x
  end.

Notation "' p <- r ;; k" := (bind r (fun p => k))
  (at level 100, p pattern, r at next level, right associativity).

(** *** Bits, least significant first *)

Local Open Scope N_scope.

Definition bits := list bool.

Definition bits_of_byte (x : byte) : bits :=
  map (N.testbit (Byte.to_N x)) [0; 1; 2; 3; 4; 5; 6; 7].

Definition bits_of_bytes (s : bytes) : bits := flat_map bits_of_byte s.

Fixpoint number (s : bits) : N :=
  match s with
  | [] => 0
  | bit :: s' => N.b2n bit + 2 * number s'
  end.

Definition byte_of_N (n : N) : byte :=
  match Byte.of_N (n mod 256) with
  | Some x => x
  | None => x00
  end.

Definition size {A} (l : list A) : N := N.of_nat (length l).
Definition item (l : list N) (i : N) : N := nth (N.to_nat i) l 0.

Definition take (n : N) (s : bits) : result (N * bits) :=
  if size s <? n then inl EOFError
  else inr (number (firstn (N.to_nat n) s), skipn (N.to_nat n) s).

(** Skip to the next byte boundary. *)
Definition align (s : bits) : bits := skipn (N.to_nat (size s mod 8)) s.

(** *** Canonical Huffman codes *)

Record huffman := {
  count : list N;   (* number of codes of length 1, 2, ..., 15 *)
  symbol : list N   (* the symbols, ordered by code *)
}.

Definition code_lengths_range : list N :=
  [1; 2; 3; 4; 5; 6; 7; 8; 9; 10; 11; 12; 13; 14; 15].

Definition occurrences (l : N) (lengths : list N) : N :=
  size (filter (N.eqb l) lengths).

Definition construct (lengths : list N) : huffman :=
  {| count := map (fun l => occurrences l lengths) code_lengths_range;
     symbol :=
       flat_map
         (fun l => map (fun s => N.of_nat s)
                     (filter (fun s => nth s lengths 0 =? l)
                             (seq 0 (length lengths))))
         code_lengths_range |}.

(** The code space left unused: [None] for an over-subscribed set,
    [Some 0] for a complete one. *)
Fixpoint left_over (left : N) (counts : list N) : option N :=
  match counts with
  | [] => Some left
  | c :: counts' =>
      if 2 * left <? c then None else left_over (2 * left - c) counts'
  end.

Definition complete (lengths : list N) : bool :=
  match left_over 1 (count (construct lengths)) with
  | Some 0 => true
  | _ => false
  end.

(** Complete, or at most one code, of length 1. *)
Definition acceptable (lengths : list N) : bool :=
  match left_over 1 (count (construct lengths)) with
  | Some 0 => true
  | Some _ => size lengths =? occurrences 0 lengths + occurrences 1 lengths
  | None => false
  end.

Fixpoint decode_from (counts symbols : list N) (code first index : N)
  (s : bits) : result (N * bits) :=
  match counts with
  | [] => inl (zlib_error "invalid code")
  | cnt :: counts' =>
      match s with
      | [] => inl EOFError
      | bit :: s' =>
          let code := code + N.b2n bit in
          if code <? first + cnt
          then inr (item symbols (index + (code - first)), s')
          else decode_from counts' symbols
                 (2 * code) (2 * (first + cnt)) (index + cnt) s'
      end
  end.

Definition decode (h : huffman) (s : bits) : result (N * bits) :=
  decode_from (count h) (symbol h) 0 0 0 s.

(** *** Deflate blocks.  The output is kept newest byte first. *)

Definition lens : list N :=
  [3; 4; 5; 6; 7; 8; 9; 10; 11; 13; 15; 17; 19; 23; 27; 31; 35; 43; 51; 59;
   67; 83; 99; 115; 131; 163; 195; 227; 258].
Definition lext : list N :=
  [0; 0; 0; 0; 0; 0; 0; 0; 1; 1; 1; 1; 2; 2; 2; 2; 3; 3; 3; 3; 4; 4; 4; 4;
   5; 5; 5; 5; 0].
Definition dists : list N :=
  [1; 2; 3; 4; 5; 7; 9; 13; 17; 25; 33; 49; 65; 97; 129; 193; 257; 385; 513;
   769; 1025; 1537; 2049; 3073; 4097; 6145; 8193; 12289; 16385; 24577].
Definition dext : list N :=
  [0; 0; 0; 0; 1; 1; 2; 2; 3; 3; 4; 4; 5; 5; 6; 6; 7; 7; 8; 8; 9; 9; 10; 10;
   11; 11; 12; 12; 13; 13].

Fixpoint copy (len : nat) (back : nat) (out : bytes) : bytes :=
  match len with
  | O => out
  | S len' => copy len' back (nth back out x00 :: out)
  end.

Fixpoint codes (fuel : nat) (lencode distcode : huffman) (out : bytes)
  (s : bits) : result (bytes * bits) :=
  match fuel with
  | O => inl EOFError
  | S fuel' =>
      ' (sym, s1) <- decode lencode s ;;
      if sym <? 256 then codes fuel' lencode distcode (byte_of_N sym :: out) s1
      else if sym =? 256 then inr (out, s1)
      else if 29 <=? sym - 257
      then inl (zlib_error "invalid literal/length code")
      else
        ' (extra, s2) <- take (item lext (sym - 257)) s1 ;;
        ' (dsym, s3) <- decode distcode s2 ;;
        if 30 <=? dsym then inl (zlib_error "invalid distance code")
        else
          ' (dextra, s4) <- take (item dext dsym) s3 ;;
          let len := item lens (sym - 257) + extra in
          let dist := item dists dsym + dextra in
          if size out <? dist
          then inl (zlib_error "invalid distance too far back")
          else codes fuel' lencode distcode
                 (copy (N.to_nat len) (N.to_nat (dist - 1)) out) s4
  end.

Fixpoint bytes_of_bits (n : nat) (s : bits) : bytes :=
  match n with
  | O => []
  | S n' => byte_of_N (number (firstn 8 s)) :: bytes_of_bits n' (skipn 8 s)
  end.

Definition stored (out : bytes) (s : bits) : result (bytes * bits) :=
  ' (len, s1) <- take 16 (align s) ;;
  ' (nlen, s2) <- take 16 s1 ;;
  if negb (len + nlen =? 65535)
  then inl (zlib_error "invalid stored block lengths")
  else if size s2 <? 8 * len then inl EOFError
  else inr (rev (bytes_of_bits (N.to_nat len) s2) ++ out,
            skipn (N.to_nat (8 * len)) s2).

Definition fixed_lencode : huffman :=
  construct (repeat 8 144 ++ repeat 9 112 ++ repeat 7 24 ++ repeat 8 8).
Definition fixed_distcode : huffman := construct (repeat 5 30).

Definition order : list N :=
  [16; 17; 18; 0; 8; 7; 9; 6; 10; 5; 11; 4; 12; 3; 13; 2; 14; 1; 15].

Fixpoint take_each (n : nat) (width : N) (s : bits) : result (list N * bits) :=
  match n with
  | O => inr ([], s)
  | S n' =>
      ' (v, s1) <- take width s ;;
      ' (vs, s2) <- take_each n' width s1 ;;
      inr (v :: vs, s2)
  end.

Fixpoint position (x : N) (l : list N) : option nat :=
  match l with
  | [] => None
  | y :: l' => if x =? y then Some O else option_map S (position x l')
  end.

(** [lengths[order[i]] = vs[i]], zero elsewhere. *)
Definition in_order (vs : list N) : list N :=
  map (fun sym => match position (N.of_nat sym) order with
                  | Some i => nth i vs 0
                  | None => 0
                  end)
      (seq 0 19).

Fixpoint code_lengths (fuel : nat) (total : N) (lencode : huffman)
  (lengths : list N) (s : bits) : result (list N * bits) :=
  if total <=? size lengths then inr (lengths, s)
  else
    match fuel with
    | O => inl EOFError
    | S fuel' =>
        ' (sym, s1) <- decode lencode s ;;
        if sym <? 16
        then code_lengths fuel' total lencode (lengths ++ [sym]) s1
        else if (sym =? 16) && (size lengths =? 0)
        then inl (zlib_error "invalid bit length repeat")
        else
          ' (extra, s2) <-
            take (if sym =? 16 then 2 else if sym =? 17 then 3 else 7) s1 ;;
          let times := (if sym =? 18 then 11 else 3) + extra in
          let len := if sym =? 16 then last lengths 0 else 0 in
          if total <? size lengths + times
          then inl (zlib_error "invalid bit length repeat")
          else code_lengths fuel' total lencode
                 (lengths ++ repeat len (N.to_nat times)) s2
    end.

Definition dynamic (out : bytes) (s : bits) : result (bytes * bits) :=
  ' (hlit, s1) <- take 5 s ;;
  ' (hdist, s2) <- take 5 s1 ;;
  ' (hclen, s3) <- take 4 s2 ;;
  let nlen := N.to_nat (hlit + 257) in
  if (286 <? hlit + 257) || (30 <? hdist + 1)
  then inl (zlib_error "too many length or distance symbols")
  else
    ' (vs, s4) <- take_each (N.to_nat (hclen + 4)) 3 s3 ;;
    if negb (complete (in_order vs))
    then inl (zlib_error "invalid code lengths set")
    else
      ' (lengths, s5) <-
        code_lengths (S (length s4)) (hlit + 257 + (hdist + 1))
                     (construct (in_order vs)) [] s4 ;;
      if nth 256 lengths 0 =? 0
      then inl (zlib_error "invalid code -- missing end-of-block")
      else if negb (acceptable (firstn nlen lengths))
      then inl (zlib_error "invalid literal/lengths set")
      else if negb (acceptable (skipn nlen lengths))
      then inl (zlib_error "invalid distances set")
      else codes (S (length s5)) (construct (firstn nlen lengths))
                 (construct (skipn nlen lengths)) out s5.

Fixpoint blocks (fuel : nat) (out : bytes) (s : bits)
  : result (bytes * bits) :=
  match fuel with
  | O => inl EOFError
  | S fuel' =>
      ' (final, s1) <- take 1 s ;;
      ' (type, s2) <- take 2 s1 ;;
      ' (out', s3) <-
        (match type with
         | 0 => stored out s2
         | 1 => codes (S (length s2)) fixed_lencode fixed_distcode out s2
         | 2 => dynamic out s2
         | _ => inl (zlib_error "invalid block type")
         end) ;;
      if final =? 1 then inr (out', s3) else blocks fuel' out' s3
  end.

(** *** CRC-32 (RFC 1952, section 8) *)

Definition crc_shift (c : N) : N :=
  if N.testbit c 0 then N.lxor (N.shiftr c 1) 3988292384 else N.shiftr c 1.

Definition crc_byte (c : N) (x : byte) : N :=
  Nat.iter 8 crc_shift (N.lxor c (Byte.to_N x)).

Definition crc32 (data : bytes) : N :=
  N.lxor (fold_left crc_byte data 4294967295) 4294967295.

(** *** Members *)

Fixpoint after_zero (s : bytes) : bytes :=
  match s with
  | [] => []
  | x :: s' => if Byte.eqb x x00 then s' else after_zero s'
  end.

Fixpoint skip_zeros (s : bytes) : bytes :=
  match s with
  | x :: s' => if Byte.eqb x x00 then skip_zeros s' else s
  | [] => []
  end.

Definition flag (flg : byte) (bit : N) : bool := N.testbit (Byte.to_N flg) bit.

(** The member header; the result is the deflate stream and what follows. *)
Definition read_gzip_header (s : bytes) : result bytes :=
  if negb (startswith Byte.byte_eq_dec GZIP_MAGIC_NUMBER s)
  then inl (IOError "Not a gzipped file")
  else
    match skipn 2 s with
    | method :: flg :: _ :: _ :: _ :: _ :: _ :: _ :: s1 =>
        if negb (Byte.eqb method x08)
        then inl (IOError "Unknown compression method")
        else
          ' s2 <-
            (if flag flg 2 then
               match s1 with
               | l0 :: l1 :: s' =>
                   let xlen := Byte.to_N l0 + 256 * Byte.to_N l1 in
                   if size s' <? xlen then inl EOFError
                   else inr (skipn (N.to_nat xlen) s')
               | _ => inl EOFError
               end
             else inr s1) ;;
          let s3 := if flag flg 3 then after_zero s2 else s2 in
          let s4 := if flag flg 4 then after_zero s3 else s3 in
          if flag flg 1
          then if size s4 <? 2 then inl EOFError else inr (skipn 2 s4)
          else inr s4
    | _ => inl EOFError
    end.

(** One member: header, deflate stream, CRC-32 and size of the data.  The
    result is the data and what follows the member. *)
Definition member (s : bytes) : result (bytes * bytes) :=
  ' deflated <- read_gzip_header s ;;
  ' (out, s1) <- blocks (S (length deflated)) [] (bits_of_bytes deflated) ;;
  let trailer := align s1 in
  if size trailer <? 64 then inl EOFError
  else
    let data := rev out in
    if negb (number (firstn 32 trailer) =? crc32 data)
    then inl (IOError "CRC check failed")
    else if negb (number (firstn 32 (skipn 32 trailer))
                  =? size data mod 4294967296)
    then inl (IOError "Incorrect length of data produced")
    else inr (data,
              skip_zeros
                (skipn (length deflated - length trailer / 8 + 8) deflated)).

Fixpoint members (fuel : nat) (s : bytes) : result bytes :=
  match s with
  | [] => inr []
  | _ =>
      match fuel with
      | O => inl EOFError
      | S fuel' =>
          ' (data, s') <- member s ;;
          ' more <- members fuel' s' ;;
          inr (data ++ more)
      end
  end.

(** [gzip.GzipFile(fileobj=io.BytesIO(s)).read()] *)
Definition read (s : bytes) : read_result :=
  match members (length s) s with
  | inl e => Raises e
  | inr data => Data data
  end.

(** *** Writing: one member of stored blocks (compression level 0) *)

Definition le16 (n : N) : bytes := [byte_of_N n; byte_of_N (n / 256)].

Definition le32 (n : N) : bytes :=
  [byte_of_N n; byte_of_N (n / 256); byte_of_N (n / 65536);
   byte_of_N (n / 16777216)].

Fixpoint stored_blocks (fuel : nat) (data : bytes) : bytes :=
  match fuel with
  | O => []
  | S fuel' =>
      if size data <=? 65535
      then x01 :: le16 (size data) ++ le16 (65535 - size data) ++ data
      else x00 :: le16 65535 ++ le16 0 ++ firstn (N.to_nat 65535) data
           ++ stored_blocks fuel' (skipn (N.to_nat 65535) data)
  end.

Definition compress (data : bytes) : bytes :=
  [x1f; x8b; x08; x00; x00; x00; x00; x00; x00; xff]
  ++ stored_blocks (S (length data)) data
  ++ le32 (crc32 data)
  ++ le32 (size data mod 4294967296).
End Gzip.

(** ** Example messages

    The examples run the extension as Burp does for a proxied response:
    [TOOL_PROXY] is 4 in [IBurpExtenderCallbacks]. *)

Definition run (messageInfo : message) : outcome :=
  process 4 Gzip.read messageInfo.

Definition example_url : text := str "http://example.test/app.js".

Definition padding (n : nat) : bytes := repeat x41 n.

(** An "Object moved" stub of more than 1000 bytes. *)
Definition moved_stub : bytes :=
  STUB_OPEN ++ b "<h2>Object moved to <a href=/app.js>here</a>.</h2>"
  ++ padding 1000 ++ STUB_CLOSE.

Definition js_payload : bytes := b "var x=1;".

(** Scenario A: a 302 whose body is the stub followed by the gzipped
    script. *)
Definition scenario_A : message :=
  {| original_headers :=
       [ str "HTTP/1.1 302 Found";
         str "Content-Type: application/x-javascript";
         str "Content-Encoding: gzip";
         str "Location: /app.js" ];
     original_body_bytes := moved_stub ++ Gzip.compress js_payload;
     url := example_url |}.

(** The same, with bytes after the gzip member that are not a member. *)
Definition trailing_garbage : message :=
  {| original_headers := original_headers scenario_A;
     original_body_bytes :=
       moved_stub ++ Gzip.compress js_payload ++ b "<!-- end -->";
     url := example_url |}.

(** Scenario C: a 200 with a large body. *)
Definition scenario_C : message :=
  {| original_headers := [ str "HTTP/1.1 200 OK"; str "Content-Type: text/html" ];
     original_body_bytes := padding 2000;
     url := example_url |}.

(** A status line made of a space and the code. *)
Definition leading_space : message :=
  {| original_headers := [ str " 302" ];
     original_body_bytes := padding 1001;
     url := example_url |}.

(** A 302 without reason phrase. *)
Definition no_reason_html : message :=
  {| original_headers := [ str "HTTP/1.1 302"; str "Content-Type: text/html" ];
     original_body_bytes := padding 1001;
     url := example_url |}.

(** A 302 without reason phrase, JavaScript, nothing compressed in the
    body. *)
Definition no_reason_js_plain : message :=
  {| original_headers :=
       [ str "HTTP/1.1 302"; str "Content-Type: application/x-javascript" ];
     original_body_bytes := padding 1001;
     url := example_url |}.

(** A 302 without reason phrase, JavaScript, a gzip member with trailing
    bytes. *)
Definition no_reason_js_garbage : message :=
  {| original_headers :=
       [ str "HTTP/1.1 302"; str "Content-Type: application/x-javascript" ];
     original_body_bytes := original_body_bytes trailing_garbage;
     url := example_url |}.

(** A gzip header followed by a deflate block of the reserved type 3. *)
Definition corrupt_deflate : message :=
  {| original_headers := original_headers scenario_A;
     original_body_bytes :=
       moved_stub
       ++ [x1f; x8b; x08; x00; x00; x00; x00; x00; x00; x03]
       ++ repeat xff 30;
     url := example_url |}.

(** A 301 with a plain HTML body and no stub. *)
Definition plain_redirect : message :=
  {| original_headers :=
       [ str "HTTP/1.1 301 Moved Permanently";
         str "Content-Type: text/html";
         str "Content-Encoding: gzip" ];
     original_body_bytes := padding 1500;
     url := example_url |}.

(** A 302 whose body is nothing but the stub. *)
Definition stub_only : message :=
  {| original_headers := [ str "HTTP/1.1 302 Found"; str "Content-Type: text/html" ];
     original_body_bytes := moved_stub;
     url := example_url |}.

(** A reader that refuses whatever does not start with the magic number. *)
Definition strict_read (data : bytes) : read_result :=
  if startswith Byte.byte_eq_dec GZIP_MAGIC_NUMBER data
  then Gzip.read data
  else Raises (OtherException "AssertionError" "no magic number").

(** Two stubs in a row. *)
Definition small_stub : bytes := STUB_OPEN ++ b "moved" ++ STUB_CLOSE.
Definition two_stubs : bytes := small_stub ++ small_stub.

(** * Facts about the sequence methods *)

Section SequenceFacts.
Context {A : Type}.
Variable eq_dec : forall x y : A, {x = y} + {x <> y}.

Local Abbreviation startswith := (startswith eq_dec).
Local Abbreviation find := (find eq_dec).

Lemma startswith_iff (p s : list A) :
  startswith p s = true <-> exists t, s = p ++ t.
Proof.
  revert s; induction p as [|x p IH]; intros s; simpl.
  - split; [intros _; now exists s | reflexivity].
  - destruct s as [|y s].
    + split; [discriminate | intros [t Ht]; discriminate].
    + destruct (eq_dec x y) as [->|Hxy].
      * rewrite IH. split; intros [t Ht]; exists t.
        -- now rewrite Ht.
        -- now injection Ht.
      * split; [discriminate | intros [t Ht]; injection Ht; congruence].
Qed.

Lemma startswith_app (p t : list A) : startswith p (p ++ t) = true.
Proof. apply startswith_iff. now exists t. Qed.

Lemma startswith_length (p s : list A) :
  startswith p s = true -> length p <= length s.
Proof.
  intros H. apply startswith_iff in H as [t ->].
  rewrite length_app. lia.
Qed.

Lemma startswith_skipn (p s : list A) :
  startswith p s = true -> s = p ++ skipn (length p) s.
Proof.
  intros H. apply startswith_iff in H as [t ->].
  now rewrite skipn_app, skipn_all, Nat.sub_diag.
Qed.

Lemma startswith_grow (p s t : list A) :
  startswith p s = true -> startswith p (s ++ t) = true.
Proof.
  intros H. apply startswith_iff in H as [u ->].
  rewrite <- app_assoc. apply startswith_app.
Qed.

(** A failed comparison against a subject that is long enough stays
    failed when the subject is extended. *)
Lemma startswith_grow_false (p s t : list A) :
  startswith p s = false -> length p <= length s ->
  startswith p (s ++ t) = false.
Proof.
  revert s; induction p as [|x p IH]; intros s; simpl.
  - discriminate.
  - destruct s as [|y s]; simpl; [lia|].
    destruct (eq_dec x y); [|reflexivity].
    intros H Hlen. apply IH; [assumption | lia].
Qed.

Lemma find_head (sub s : list A) :
  startswith sub s = true -> find sub s = Some 0.
Proof. intros H. destruct s; simpl in *; now rewrite H. Qed.

Lemma find_unfold (sub s : list A) :
  find sub s =
    if startswith sub s then Some 0
    else match s with
         | [] => None
         | _ :: s' => option_map S (find sub s')
         end.
Proof. destruct s; reflexivity. Qed.

(** [find] returns an index at which [sub] occurs ... *)
Lemma find_Some (sub s : list A) (k : nat) :
  find sub s = Some k ->
  exists before after, s = before ++ sub ++ after /\ length before = k.
Proof.
  revert k; induction s as [|c s IH]; intros k; rewrite find_unfold.
  - destruct (startswith sub []) eqn:E; [|discriminate].
    intros [= <-]. apply startswith_iff in E as [t Ht].
    exists [], t. now split.
  - destruct (startswith sub (c :: s)) eqn:E.
    + intros [= <-]. apply startswith_iff in E as [t Ht].
      exists [], t. now split.
    + destruct (find sub s) as [j|]; [|discriminate].
      intros [= <-]. destruct (IH j eq_refl) as (pre & post & -> & Hlen).
      exists (c :: pre), post. simpl; now rewrite Hlen.
Qed.

(** ... and no occurrence starts before it. *)
Lemma find_least (sub s : list A) (k : nat) :
  find sub s = Some k ->
  forall before after, s = before ++ sub ++ after -> k <= length before.
Proof.
  revert k; induction s as [|c s IH]; intros k; rewrite find_unfold.
  - destruct (startswith sub []); [|discriminate].
    intros [= <-] ? ? _; lia.
  - destruct (startswith sub (c :: s)) eqn:E.
    + intros [= <-] ? ? _; lia.
    + destruct (find sub s) as [j|]; [|discriminate].
      intros [= <-] [|x pre] post Hs.
      * rewrite Hs in E. simpl app in E.
        now rewrite startswith_app in E.
      * injection Hs as -> ->. simpl. specialize (IH j eq_refl _ _ eq_refl). lia.
Qed.

Lemma find_None (sub s : list A) :
  find sub s = None ->
  forall before after, s <> before ++ sub ++ after.
Proof.
  induction s as [|c s IH]; rewrite find_unfold.
  - destruct (startswith sub []) eqn:E; [discriminate|].
    intros _ [|x pre] post Hs; [|discriminate].
    rewrite Hs in E. simpl app in E. now rewrite startswith_app in E.
  - destruct (startswith sub (c :: s)) eqn:E; [discriminate|].
    destruct (find sub s) as [j|]; [discriminate|].
    intros _ [|x pre] post Hs.
    + rewrite Hs in E. simpl app in E. now rewrite startswith_app in E.
    + injection Hs as -> ->. now apply (IH eq_refl pre post).
Qed.

Lemma find_occurs (sub before after : list A) :
  exists k, find sub (before ++ sub ++ after) = Some k /\ k <= length before.
Proof.
  destruct (find sub (before ++ sub ++ after)) as [k|] eqn:E.
  - exists k. split; [reflexivity|]. now apply (find_least _ _ _ E before after).
  - exfalso. now apply (find_None _ _ E before after).
Qed.

Lemma find_Some_length (sub s : list A) (k : nat) :
  find sub s = Some k -> k + length sub <= length s.
Proof.
  intros H. apply find_Some in H as (pre & post & -> & <-).
  rewrite !length_app. lia.
Qed.

(** The first occurrence stays the first when bytes are appended. *)
Lemma find_grow (sub s t : list A) (k : nat) :
  find sub s = Some k -> find sub (s ++ t) = Some k.
Proof.
  revert k; induction s as [|c s IH]; intros k; rewrite find_unfold.
  - destruct (startswith sub []) eqn:E; [|discriminate].
    intros [= <-]. apply find_head. now apply (startswith_grow _ []).
  - destruct (startswith sub (c :: s)) eqn:E.
    + intros [= <-]. apply find_head. now apply startswith_grow.
    + destruct (find sub s) as [j|] eqn:Ej; [|discriminate].
      intros [= <-]. rewrite find_unfold.
      rewrite startswith_grow_false; [|assumption|].
      * simpl. now rewrite (IH j eq_refl).
      * apply find_Some_length in Ej. simpl. lia.
Qed.

Lemma after_first_find (lit s : list A) :
  after_first eq_dec lit s =
    option_map (fun k => skipn (k + length lit) s) (find lit s).
Proof.
  induction s as [|c s IH]; rewrite find_unfold; simpl after_first.
  - now destruct (startswith lit []).
  - destruct (startswith lit (c :: s)); [reflexivity|].
    rewrite IH. now destruct (find lit s).
Qed.
End SequenceFacts.

(** * Facts about the pattern [lit1 .*? lit2] *)

Section RegexFacts.
Context {A : Type}.
Variable eq_dec : forall x y : A, {x = y} + {x <> y}.
Variables lit1 lit2 : list A.

Local Abbreviation here := (match_here eq_dec lit1 lit2).
Local Abbreviation search := (regex_search eq_dec lit1 lit2).
Local Abbreviation delete_first := (regex_sub_empty eq_dec lit1 lit2).

Lemma skipn_length_app (l t : list A) : skipn (length l) (l ++ t) = t.
Proof. now rewrite skipn_app, skipn_all, Nat.sub_diag. Qed.

Lemma regex_search_unfold (s : list A) :
  search s =
    match here s with
    | Some _ => true
    | None => match s with [] => false | _ :: s' => search s' end
    end.
Proof. destruct s; reflexivity. Qed.

Lemma regex_sub_empty_unfold (s : list A) :
  delete_first s =
    match here s with
    | Some rest => rest
    | None => match s with [] => [] | c :: s' => c :: delete_first s' end
    end.
Proof. destruct s; reflexivity. Qed.

(** A match at the head is the first literal, an interior, the second
    literal; what is returned is the rest of the subject. *)
Lemma match_here_Some (s rest : list A) :
  here s = Some rest ->
  exists interior, s = lit1 ++ interior ++ lit2 ++ rest.
Proof.
  unfold match_here.
  destruct (startswith eq_dec lit1 s) eqn:E1; [|discriminate].
  rewrite after_first_find.
  destruct (find eq_dec lit2 (skipn (length lit1) s)) as [k|] eqn:E2;
    [|discriminate].
  intros [= <-].
  pose proof (startswith_skipn _ _ _ E1) as Hhead.
  destruct (find_Some _ _ _ _ E2) as (pre & post & Hs & Hk).
  exists pre. subst k. rewrite Hs in Hhead |- *.
  replace (length pre + length lit2) with (length (pre ++ lit2))
    by (now rewrite length_app).
  rewrite (app_assoc pre lit2 post), skipn_length_app.
  exact Hhead.
Qed.

Lemma match_here_occurs (interior after : list A) :
  exists rest, here (lit1 ++ interior ++ lit2 ++ after) = Some rest.
Proof.
  unfold match_here.
  rewrite startswith_app, skipn_length_app, after_first_find.
  destruct (find_occurs eq_dec lit2 interior after) as (k & -> & _).
  simpl. eauto.
Qed.

(** The lazy interior: when the second literal first occurs right after
    [interior], the match ends there. *)
Lemma match_here_first (interior after : list A) :
  find eq_dec lit2 (interior ++ lit2) = Some (length interior) ->
  here (lit1 ++ interior ++ lit2 ++ after) = Some after.
Proof.
  intros H. unfold match_here.
  rewrite startswith_app, skipn_length_app, after_first_find.
  rewrite (app_assoc interior lit2 after), (find_grow _ _ _ after _ H).
  simpl. f_equal.
  replace (length interior + length lit2) with (length (interior ++ lit2))
    by (now rewrite length_app).
  apply skipn_length_app.
Qed.

(** [search] succeeds exactly on the subjects that contain the two
    literals in this order. *)
Lemma regex_search_iff (s : list A) :
  search s = true <->
  exists before interior after,
    s = before ++ lit1 ++ interior ++ lit2 ++ after.
Proof.
  split.
  - induction s as [|c s IH]; rewrite regex_search_unfold.
    + destruct (here []) as [r|] eqn:E; [|discriminate].
      intros _. destruct (match_here_Some _ _ E) as [mid Hs].
      now exists [], mid, r.
    + destruct (here (c :: s)) as [r|] eqn:E.
      * intros _. destruct (match_here_Some _ _ E) as [mid Hs].
        now exists [], mid, r.
      * intros H. destruct (IH H) as (pre & mid & post & ->).
        now exists (c :: pre), mid, post.
  - intros (pre & mid & post & ->).
    induction pre as [|c pre IH]; rewrite regex_search_unfold.
    + simpl app. now destruct (match_here_occurs mid post) as [r ->].
    + simpl app.
      destruct (here (c :: pre ++ lit1 ++ mid ++ lit2 ++ post));
        [reflexivity | exact IH].
Qed.

Lemma regex_sub_no_match (s : list A) :
  search s = false -> delete_first s = s.
Proof.
  induction s as [|c s IH];
    rewrite regex_search_unfold, regex_sub_empty_unfold.
  - now destruct (here []).
  - destruct (here (c :: s)); [discriminate|].
    intros H. now rewrite IH.
Qed.

Lemma regex_at_head (interior after : list A) :
  find eq_dec lit2 (interior ++ lit2) = Some (length interior) ->
  search (lit1 ++ interior ++ lit2 ++ after) = true
  /\ delete_first (lit1 ++ interior ++ lit2 ++ after) = after.
Proof.
  intros H. rewrite regex_search_unfold, regex_sub_empty_unfold.
  now rewrite (match_here_first _ _ H).
Qed.
End RegexFacts.

(** * Facts about the Carver *)

Lemma html_redirect_search_iff (body : bytes) :
  html_redirect_search body = true <-> contains_stub body.
Proof. apply regex_search_iff. Qed.

Lemma carve_without_stub (body : bytes) :
  ~ contains_stub body -> carve body = body.
Proof.
  intros H. unfold carve.
  destruct (html_redirect_search body) eqn:E; [|reflexivity].
  now apply html_redirect_search_iff in E.
Qed.

Lemma carve_stub (stub rest : bytes) :
  is_stub stub -> carve (stub ++ rest) = rest.
Proof.
  intros (interior & -> & Hfirst). unfold carve.
  rewrite <- !app_assoc.
  destruct (regex_at_head Byte.byte_eq_dec STUB_OPEN STUB_CLOSE
              interior rest Hfirst) as [Hs Hr].
  unfold html_redirect_search, html_redirect_sub. now rewrite Hs, Hr.
Qed.

(** * Facts about the status line *)

Lemma partition_None_iff {A} (eq_dec : forall x y : A, {x = y} + {x <> y})
  (sep : A) (s : list A) :
  partition eq_dec sep s = None <-> ~ In sep s.
Proof.
  induction s as [|c s IH]; simpl.
  - tauto.
  - destruct (eq_dec c sep) as [->|Hc].
    + split; [discriminate | intros H; exfalso; apply H; now left].
    + destruct (partition eq_dec sep s) as [[before after]|].
      * split; [discriminate|]. intros H. exfalso.
        assert (Hs : ~ In sep s) by tauto.
        apply IH in Hs. discriminate.
      * split; [|reflexivity]. intros _ [H|H]; [congruence|].
        now apply (proj1 IH).
Qed.

(** [split(' ', 2)] gives fewer than two parts exactly when the line has
    no space. *)
Lemma split_one_part (status_line : text) :
  length (split ascii_dec " "%char 2 status_line) < 2
  <-> ~ In " "%char status_line.
Proof.
  rewrite <- partition_None_iff with (eq_dec := ascii_dec). simpl.
  destruct (partition ascii_dec " "%char status_line) as [[before after]|].
  - split; [|discriminate].
    destruct (partition ascii_dec " "%char after) as [[? ?]|]; simpl; lia.
  - simpl. split; [reflexivity | lia].
Qed.

Lemma is_candidate_false (status_line : text) (body : bytes) :
  length (split ascii_dec " "%char 2 status_line) < 2
  \/ tstartswith (str "3") (nth 1 (split ascii_dec " "%char 2 status_line) [])
     = false
  \/ length body <= 1000 ->
  is_candidate status_line body = false.
Proof.
  unfold is_candidate. cbv zeta. intros [H|[H|H]].
  - assert (E : (1 <? length (split ascii_dec " "%char 2 status_line)) = false)
      by (apply Nat.ltb_ge; lia).
    now rewrite E.
  - rewrite H. apply andb_false_intro1, andb_false_r.
  - assert (E : (1000 <? length body) = false) by (apply Nat.ltb_ge; lia).
    rewrite E. apply andb_false_r.
Qed.

Lemma is_candidate_true (status_line : text) (body : bytes) :
  is_candidate status_line body = true ->
  1 < length (split ascii_dec " "%char 2 status_line)
  /\ tstartswith (str "3") (nth 1 (split ascii_dec " "%char 2 status_line) [])
     = true
  /\ 1000 < length body.
Proof.
  unfold is_candidate. cbv zeta. intros H.
  apply andb_prop in H as [H H3]. apply andb_prop in H as [H1 H2].
  apply Nat.ltb_lt in H1, H3. auto.
Qed.

Lemma rewrite_status_unfold (s : text) :
  rewrite_status s =
    match match_status_here s with
    | Some rest => str " 200 OK" ++ rest
    | None => match s with [] => [] | c :: s' => c :: rewrite_status s' end
    end.
Proof. destruct s; reflexivity. Qed.

Lemma match_status_here_Some (s rest : text) :
  match_status_here s = Some rest ->
  exists d1 d2 c after,
    s = " "%char :: "3"%char :: d1 :: d2 :: " "%char :: c :: after
    /\ is_digit d1 = true /\ is_digit d2 = true
    /\ c <> newline /\ rest = rest_of_line after.
Proof.
  unfold match_status_here.
  destruct s as [|sp1 [|three [|d1 [|d2 [|sp2 [|c after]]]]]]; try discriminate.
  destruct (Ascii.eqb_spec sp1 " "%char) as [->|]; [|discriminate].
  destruct (Ascii.eqb_spec three "3"%char) as [->|]; [|discriminate].
  destruct (is_digit d1) eqn:E1; [|discriminate].
  destruct (is_digit d2) eqn:E2; [|discriminate].
  destruct (Ascii.eqb_spec sp2 " "%char) as [->|]; [|discriminate].
  destruct (Ascii.eqb_spec c newline) as [|Hc]; [discriminate|].
  simpl. intros [= <-]. now exists d1, d2, c, after.
Qed.

Lemma match_status_here_not_space (c : ascii) (s : text) :
  c <> " "%char -> match_status_here (c :: s) = None.
Proof.
  intros Hc. unfold match_status_here.
  destruct s as [|three [|d1 [|d2 [|sp2 [|c' after]]]]]; try reflexivity.
  destruct (Ascii.eqb_spec c " "%char); [contradiction | reflexivity].
Qed.

Lemma rest_of_line_no_newline (s : text) :
  ~ In newline s -> rest_of_line s = [].
Proof.
  induction s as [|c s IH]; simpl; [reflexivity|].
  intros H. destruct (Ascii.eqb_spec c newline) as [->|].
  - exfalso. apply H. now left.
  - apply IH. tauto.
Qed.

(** Without the segment the substitution finds nothing to replace. *)
Lemma rewrite_status_no_segment (status_line : text) :
  ~ has_status_segment status_line -> rewrite_status status_line = status_line.
Proof.
  induction status_line as [|c s IH]; rewrite rewrite_status_unfold.
  - reflexivity.
  - destruct (match_status_here (c :: s)) as [rest|] eqn:E.
    + intros H. exfalso. apply H.
      destruct (match_status_here_Some _ _ E)
        as (d1 & d2 & c' & after & Hs & H1 & H2 & _).
      exists [], d1, d2, c', after. now rewrite Hs.
    + intros H. f_equal. apply IH.
      intros (before & d1 & d2 & c' & after & Hs & H1 & H2). apply H.
      exists (c :: before), d1, d2, c', after. now rewrite Hs.
Qed.

(** A well-formed 3xx status line: protocol, a space, the digit 3 and two
    digits, a space, a reason phrase that is neither empty nor holds a line
    break.  The substitution leaves the protocol and writes [200 OK]. *)
Lemma rewrite_status_well_formed (protocol reason : text) (d1 d2 : ascii) :
  ~ In " "%char protocol ->
  is_digit d1 = true -> is_digit d2 = true ->
  reason <> [] -> ~ In newline reason ->
  rewrite_status
    (protocol ++ " "%char :: "3"%char :: d1 :: d2 :: " "%char :: reason)
  = protocol ++ str " 200 OK".
Proof.
  intros Hp H1 H2 Hr Hn.
  induction protocol as [|c p IH]; rewrite rewrite_status_unfold.
  - destruct reason as [|r reason]; [contradiction|].
    simpl app. unfold match_status_here. rewrite H1, H2.
    destruct (Ascii.eqb_spec r newline) as [->|].
    + exfalso. apply Hn. now left.
    + simpl. rewrite rest_of_line_no_newline; [reflexivity|].
      intros H. apply Hn. now right.
  - simpl app. rewrite match_status_here_not_space.
    + f_equal. apply IH. intros H. apply Hp. now right.
    + intros ->. apply Hp. now left.
Qed.

(** * Facts about header names *)

Lemma lower_char_colon (c : ascii) : lower_char c = ":"%char <-> c = ":"%char.
Proof.
  destruct c as [[] [] [] [] [] [] [] []]; vm_compute;
    split; congruence.
Qed.

Lemma lower_no_colon (n : text) :
  In ":"%char n <-> In ":"%char (lower n).
Proof.
  unfold lower. rewrite in_map_iff. split.
  - intros H. exists ":"%char. split; [reflexivity | exact H].
  - intros (c & Hc & Hin). apply (proj1 (lower_char_colon c)) in Hc.
    now subst c.
Qed.

(** The test of line 99 selects the lines whose name is [name], compared
    without regard to case. *)
Lemma startswith_lower_header_named (name h : text) :
  ~ In ":"%char name ->
  tstartswith (name ++ [":"%char]) (lower h) = true <-> header_named name h.
Proof.
  intros Hname. unfold tstartswith. rewrite startswith_iff. split.
  - intros [t Ht]. unfold lower in Ht. rewrite <- app_assoc in Ht.
    apply map_eq_app in Ht as (n & rest & -> & Hn & Hrest).
    destruct rest as [|c value]; [discriminate|].
    simpl in Hrest. injection Hrest as Hc _.
    apply (proj1 (lower_char_colon c)) in Hc. subst c.
    exists n, value. repeat split; [|assumption].
    intros H. apply Hname. rewrite <- Hn. exact (proj1 (lower_no_colon n) H).
  - intros (n & value & -> & _ & <-).
    exists (lower value). unfold lower.
    now rewrite map_app, <- app_assoc.
Qed.

Lemma is_content_encoding_iff (h : text) :
  is_content_encoding h = true <-> header_named (str "content-encoding") h.
Proof.
  apply (startswith_lower_header_named (str "content-encoding")).
  vm_compute. intuition discriminate.
Qed.

Lemma keep_iff (h : text) :
  keep h = true <-> ~ header_named (str "content-encoding") h.
Proof.
  unfold keep. rewrite <- is_content_encoding_iff.
  destruct (is_content_encoding h); simpl; split; congruence.
Qed.

(** A Content-Type line whose lowered text holds the JavaScript type is
    what the loop of lines 76-80 looks for. *)
Lemma is_content_type_js_iff (h : text) :
  is_content_type_js h = true
  <-> header_named (str "content-type") h
      /\ tcontains (str "application/x-javascript") (lower h) = true.
Proof.
  unfold is_content_type_js. rewrite andb_true_iff.
  rewrite <- (startswith_lower_header_named (str "content-type")).
  - reflexivity.
  - vm_compute. intuition discriminate.
Qed.

(** A lower-case needle found in a line is found in the lowered line. *)
Lemma contains_lower (needle h : text) :
  lower needle = needle ->
  tcontains needle h = true -> tcontains needle (lower h) = true.
Proof.
  unfold tcontains, contains. intros Hn H.
  destruct (find ascii_dec needle h) as [k|] eqn:E; [|discriminate].
  destruct (find_Some _ _ _ _ E) as (before & after & -> & _).
  unfold lower. rewrite !map_app. fold (lower needle). rewrite Hn.
  now destruct (find_occurs ascii_dec needle (map lower_char before)
                  (map lower_char after)) as (j & -> & _).
Qed.


(** * Facts about the trace *)

Lemma decision_of_prints (l : list diagnostic) (es : list effect) :
  decision_of (map Print l ++ es) = decision_of es.
Proof. induction l as [|d l IH]; simpl; [reflexivity | exact IH]. Qed.

Lemma notifications_prints (l : list diagnostic) (es : list effect) :
  filter is_notification (map Print l ++ es) = filter is_notification es.
Proof. induction l as [|d l IH]; simpl; [reflexivity | exact IH]. Qed.

Lemma console_prints (l : list diagnostic) (es : list effect) :
  flat_map (fun e => match e with Print d => [d] | _ => [] end)
           (map Print l ++ es)
  = l ++ flat_map (fun e => match e with Print d => [d] | _ => [] end) es.
Proof. induction l as [|d l IH]; simpl; [reflexivity | now rewrite IH]. Qed.

(** * The five ways through [processHttpMessage] *)

Section ExtensionFacts.
Variable TOOL_PROXY : Z.
Variable GzipFile_read : bytes -> read_result.

Local Abbreviation run_main := (main_logic GzipFile_read).
Local Abbreviation run_process := (process TOOL_PROXY GzipFile_read).

Lemma process_unfold (m : message) :
  run_process m =
    match run_main (original_headers m) (original_body_bytes m) with
    | (out, inl e) => {| effects := map Print out; raised := Some e |}
    | (out, inr l) =>
        {| effects := map Print out ++ notify l (url m); raised := None |}
    end.
Proof.
  unfold process, processHttpMessage. simpl negb.
  now rewrite Z.eqb_refl.
Qed.


Lemma main_no_headers (body : bytes) :
  run_main [] body
  = ([], inr {| new_headers := []; new_body := body; modified := false |}).
Proof. reflexivity. Qed.

Lemma main_not_candidate (status_line : text) (others : list text)
  (body : bytes) :
  is_candidate status_line body = false ->
  run_main (status_line :: others) body
  = ([], inr {| new_headers := status_line :: others;
                new_body := body;
                modified := false |}).
Proof. intros H. unfold main_logic. now rewrite H. Qed.

Lemma main_no_signal (status_line : text) (others : list text)
  (body : bytes) :
  is_candidate status_line body = true ->
  is_js_target (rewrite_status status_line :: others) = false ->
  run_main (status_line :: others) body
  = (first_prints status_line body,
     inr {| new_headers := rewrite_status status_line :: others;
            new_body := carve body;
            modified := true |}).
Proof. intros H1 H2. unfold main_logic. now rewrite H1, H2. Qed.

Lemma main_no_magic (status_line : text) (others : list text)
  (body : bytes) :
  is_candidate status_line body = true ->
  is_js_target (rewrite_status status_line :: others) = true ->
  find Byte.byte_eq_dec GZIP_MAGIC_NUMBER (carve body) = None ->
  run_main (status_line :: others) body
  = (first_prints status_line body,
     inr {| new_headers := rewrite_status status_line :: others;
            new_body := carve body;
            modified := true |}).
Proof.
  intros H1 H2 H3. unfold main_logic, decompress_js.
  rewrite H1, H2, H3. now rewrite app_nil_r.
Qed.

Lemma main_inflated (status_line : text) (others : list text)
  (body data : bytes) (k : nat) :
  is_candidate status_line body = true ->
  is_js_target (rewrite_status status_line :: others) = true ->
  find Byte.byte_eq_dec GZIP_MAGIC_NUMBER (carve body) = Some k ->
  GzipFile_read (skipn k (carve body)) = Data data ->
  run_main (status_line :: others) body
  = (first_prints status_line body ++ [GzipFound k; Decompressed],
     inr {| new_headers := filter keep (rewrite_status status_line :: others);
            new_body := data;
            modified := true |}).
Proof.
  intros H1 H2 H3 H4. unfold main_logic, decompress_js.
  now rewrite H1, H2, H3, H4.
Qed.

Lemma main_IOError (status_line : text) (others : list text)
  (body : bytes) (k : nat) (msg : string) :
  is_candidate status_line body = true ->
  is_js_target (rewrite_status status_line :: others) = true ->
  find Byte.byte_eq_dec GZIP_MAGIC_NUMBER (carve body) = Some k ->
  GzipFile_read (skipn k (carve body)) = Raises (IOError msg) ->
  run_main (status_line :: others) body
  = (first_prints status_line body ++ [GzipFound k; GzipFailed (IOError msg)],
     inr {| new_headers := rewrite_status status_line :: others;
            new_body := carve body;
            modified := false |}).
Proof.
  intros H1 H2 H3 H4. unfold main_logic, decompress_js.
  now rewrite H1, H2, H3, H4.
Qed.

(** An exception that [except IOError] does not catch leaves the method. *)
Lemma main_other_exception (status_line : text) (others : list text)
  (body : bytes) (k : nat) (class msg : string) :
  is_candidate status_line body = true ->
  is_js_target (rewrite_status status_line :: others) = true ->
  find Byte.byte_eq_dec GZIP_MAGIC_NUMBER (carve body) = Some k ->
  GzipFile_read (skipn k (carve body)) = Raises (OtherException class msg) ->
  run_main (status_line :: others) body
  = (first_prints status_line body ++ [GzipFound k],
     inl (OtherException class msg)).
Proof.
  intros H1 H2 H3 H4. unfold main_logic, decompress_js.
  now rewrite H1, H2, H3, H4.
Qed.

Lemma main_logic_path (headers0 : list text) (body0 : bytes) :
  path GzipFile_read headers0 body0 (run_main headers0 body0).
Proof.
  destruct headers0 as [|status_line others].
  - rewrite main_no_headers. constructor. now left.
  - destruct (is_candidate status_line body0) eqn:Hc.
    + destruct (is_js_target (rewrite_status status_line :: others)) eqn:Hjs.
      * destruct (find Byte.byte_eq_dec GZIP_MAGIC_NUMBER (carve body0))
          as [k|] eqn:Hk.
        -- destruct (GzipFile_read (skipn k (carve body0)))
             as [data|[msg|class msg]] eqn:Hr.
           ++ rewrite (main_inflated _ _ _ _ _ Hc Hjs Hk Hr).
              exact (Succeeded _ _ _ _ _ _ _ eq_refl Hc Hjs Hk Hr).
           ++ rewrite (main_IOError _ _ _ _ _ Hc Hjs Hk Hr).
              exact (FailedCaught _ _ _ _ _ _ _ eq_refl Hc Hjs Hk Hr).
           ++ rewrite (main_other_exception _ _ _ _ _ _ Hc Hjs Hk Hr).
              exact (FailedUncaught _ _ _ _ _ _ _ _ eq_refl Hc Hjs Hk Hr).
        -- rewrite (main_no_magic _ _ _ Hc Hjs Hk).
           exact (Skipped _ _ _ _ _ eq_refl Hc (or_intror Hk)).
      * rewrite (main_no_signal _ _ _ Hc Hjs).
        exact (Skipped _ _ _ _ _ eq_refl Hc (or_introl Hjs)).
    + rewrite (main_not_candidate _ _ _ Hc). constructor.
      right. now exists status_line, others.
Qed.

(** The trace is the printed lines, followed, when [modified] is set, by
    the new response and the notification. *)
Lemma outcome_shape (toolFlag : Z) (messageIsRequest : bool) (m : message) :
  let o :=
    processHttpMessage TOOL_PROXY GzipFile_read toolFlag messageIsRequest m in
  (exists out, effects o = map Print out)
  \/ (exists out headers body,
        effects o
        = map Print out ++ SetResponse headers body :: notification_for (url m)).
Proof.
  unfold processHttpMessage.
  destruct (negb messageIsRequest && (toolFlag =? TOOL_PROXY)%Z).
  - destruct (run_main (original_headers m) (original_body_bytes m))
      as [out [e|l]]; simpl.
    + left. now exists out.
    + unfold notify. destruct (modified l).
      * right. now exists out, (new_headers l), (new_body l).
      * left. exists out. now rewrite app_nil_r.
  - left. now exists [].
Qed.

Lemma only_prints_unchanged (o : outcome) (out : list diagnostic) :
  effects o = map Print out ->
  decision o = Unchanged /\ notifications o = [] /\ console o = out.
Proof.
  intros H. unfold decision, notifications, console. rewrite H.
  rewrite <- (app_nil_r (map Print out)).
  rewrite decision_of_prints, notifications_prints, console_prints.
  simpl. now rewrite app_nil_r.
Qed.

Lemma rewritten_trace (o : outcome) (out : list diagnostic)
  (headers : list text) (body u : _) :
  effects o = map Print out ++ SetResponse headers body :: notification_for u ->
  decision o = Rewritten headers body
  /\ notifications o = notification_for u
  /\ console o = out.
Proof.
  intros H. unfold decision, notifications, console. rewrite H.
  rewrite decision_of_prints, notifications_prints, console_prints.
  simpl. now rewrite app_nil_r.
Qed.

Lemma process_modified (m : message) (out : list diagnostic)
  (headers : list text) (body : bytes) :
  run_main (original_headers m) (original_body_bytes m)
  = (out, inr {| new_headers := headers; new_body := body; modified := true |}) ->
  raised (run_process m) = None
  /\ decision (run_process m) = Rewritten headers body
  /\ notifications (run_process m) = notification_for (url m)
  /\ console (run_process m) = out.
Proof.
  intros H. rewrite process_unfold, H. split; [reflexivity|].
  now apply rewritten_trace.
Qed.

Lemma process_not_modified (m : message) (out : list diagnostic)
  (headers : list text) (body : bytes) :
  run_main (original_headers m) (original_body_bytes m)
  = (out, inr {| new_headers := headers; new_body := body; modified := false |}) ->
  raised (run_process m) = None
  /\ effects (run_process m) = map Print out.
Proof.
  intros H. rewrite process_unfold, H. simpl. now rewrite app_nil_r.
Qed.

Lemma process_raised (m : message) (out : list diagnostic) (e : exception) :
  run_main (original_headers m) (original_body_bytes m) = (out, inl e) ->
  raised (run_process m) = Some e
  /\ effects (run_process m) = map Print out.
Proof. intros H. now rewrite process_unfold, H. Qed.

(** The skip cases: no signal, or no magic number in the carved body.
    The status line goes through the substitution, the body is the carved
    one, no header is removed. *)
Lemma skip_cases_rewritten (m : message) (status_line : text)
  (others : list text) :
  original_headers m = status_line :: others ->
  is_candidate status_line (original_body_bytes m) = true ->
  is_js_target (rewrite_status status_line :: others) = false
  \/ find Byte.byte_eq_dec GZIP_MAGIC_NUMBER (carve (original_body_bytes m))
     = None ->
  raised (run_process m) = None
  /\ decision (run_process m)
     = Rewritten (rewrite_status status_line :: others)
                 (carve (original_body_bytes m))
  /\ ~ decompression_occurred (run_process m).
Proof.
  intros Hh Hc Hskip.
  assert (Hmain :
    run_main (original_headers m) (original_body_bytes m)
    = (first_prints status_line (original_body_bytes m),
       inr {| new_headers := rewrite_status status_line :: others;
              new_body := carve (original_body_bytes m);
              modified := true |})).
  { rewrite Hh.
    destruct (is_js_target (rewrite_status status_line :: others)) eqn:Hjs.
    - destruct Hskip as [|Hk]; [discriminate|]. now apply main_no_magic.
    - now apply main_no_signal. }
  destruct (process_modified _ _ _ _ Hmain) as (Hr & Hd & _ & Hcon).
  repeat split; try assumption.
  unfold decompression_occurred. rewrite Hcon. unfold first_prints.
  destruct (html_redirect_search (original_body_bytes m)); simpl;
    intuition discriminate.
Qed.

(** A signal in a header line other than the status line is seen by the
    loop whatever the substitution did to the status line. *)
Lemma signal_in_others (status_line : text) (others : list text) :
  existsb is_content_type_js others = true ->
  is_js_target (status_line :: others) = true.
Proof. intros H. unfold is_js_target. simpl. rewrite H. apply orb_true_r. Qed.

(** * The claims *)

(** C1.  Failure containment.  For a candidate whose inspected header list
    carries the JavaScript signal, whose carved body holds the GZIP magic
    number at [k], and for which reading the bytes from [k] on raises (any
    exception), the decision is Unchanged, the host keeps the original
    status line, headers and body, and nothing but console lines is
    emitted: the rewritten status line and the carved body are dropped. *)
Theorem failure_containment (m : message) (status_line : text)
  (others : list text) (k : nat) (e : exception) :
  original_headers m = status_line :: others ->
  is_candidate status_line (original_body_bytes m) = true ->
  is_js_target (rewrite_status status_line :: others) = true ->
  find Byte.byte_eq_dec GZIP_MAGIC_NUMBER (carve (original_body_bytes m))
  = Some k ->
  GzipFile_read (skipn k (carve (original_body_bytes m))) = Raises e ->
  decision (run_process m) = Unchanged
  /\ final_response m (run_process m)
     = (original_headers m, original_body_bytes m)
  /\ notifications (run_process m) = []
  /\ (forall x, In x (effects (run_process m)) -> exists d, x = Print d).
Proof.
  intros Hh Hc Hjs Hk Hr.
  assert (Hprints : exists out, effects (run_process m) = map Print out).
  { destruct e as [msg|class msg].
    - pose proof (main_IOError _ _ _ _ _ Hc Hjs Hk Hr) as Hmain.
      rewrite <- Hh in Hmain.
      destruct (process_not_modified _ _ _ _ Hmain) as [_ He]. eauto.
    - pose proof (main_other_exception _ _ _ _ _ _ Hc Hjs Hk Hr) as Hmain.
      rewrite <- Hh in Hmain.
      destruct (process_raised _ _ _ Hmain) as [_ He]. eauto. }
  destruct Hprints as [out He].
  destruct (only_prints_unchanged _ _ He) as (Hd & Hn & _).
  repeat split; try assumption.
  - unfold final_response. now rewrite Hd.
  - intros x Hx. rewrite He in Hx. apply in_map_iff in Hx as (d & <- & _).
    now exists d.
Qed.

(** C2, amended.  A response is left alone (nothing installed, nothing
    emitted, nothing printed) when its header list is empty, or its status
    line holds no space, or the part of the status line between its first
    and second space does not start with 3, or its body has at most 1000
    bytes. *)
Theorem non_candidate_unchanged (m : message) :
  original_headers m = []
  \/ (exists status_line others,
        original_headers m = status_line :: others
        /\ (~ In " "%char status_line
            \/ tstartswith (str "3")
                 (nth 1 (split ascii_dec " "%char 2 status_line) []) = false
            \/ length (original_body_bytes m) <= 1000)) ->
  run_process m = {| effects := []; raised := None |}
  /\ decision (run_process m) = Unchanged
  /\ notifications (run_process m) = []
  /\ final_response m (run_process m)
     = (original_headers m, original_body_bytes m).
Proof.
  intros H.
  assert (E : run_process m = {| effects := []; raised := None |}).
  { rewrite process_unfold.
    destruct H as [H | (status_line & others & H & Hnc)]; rewrite H.
    - reflexivity.
    - rewrite main_not_candidate; [reflexivity|].
      apply is_candidate_false.
      destruct Hnc as [Hsp|[H3|Hlen]]; auto.
      left. now apply split_one_part. }
  unfold final_response. rewrite E. auto.
Qed.

(** C4.  Round-trip.  The body of a candidate is a stub followed by
    [gzip_compress payload], where the compressed bytes start with the
    magic number and the reader gives [payload] back for them, and a header
    line after the status line is named Content-Type and holds
    application/x-javascript, both compared without regard to case.  Then the decision is Rewritten with body
    [payload], and no header of the new list is named Content-Encoding. *)
Theorem round_trip (gzip_compress : bytes -> bytes) (m : message)
  (status_line : text) (others : list text) (stub payload : bytes) :
  original_headers m = status_line :: others ->
  is_candidate status_line (original_body_bytes m) = true ->
  original_body_bytes m = stub ++ gzip_compress payload ->
  is_stub stub ->
  (exists h, In h others
             /\ header_named (str "content-type") h
             /\ tcontains (str "application/x-javascript") (lower h) = true) ->
  startswith Byte.byte_eq_dec GZIP_MAGIC_NUMBER (gzip_compress payload) = true ->
  GzipFile_read (gzip_compress payload) = Data payload ->
  exists headers,
    decision (run_process m) = Rewritten headers payload
    /\ (forall h, In h headers -> ~ header_named (str "content-encoding") h)
    /\ notifications (run_process m) = notification_for (url m).
Proof.
  intros Hh Hc Hb Hstub (h0 & Hin0 & Hname0 & Hjs0) Hmagic Hread.
  assert (Hjs : existsb is_content_type_js others = true).
  { apply existsb_exists. exists h0. split; [assumption|].
    now apply is_content_type_js_iff. }
  assert (Hcarve : carve (original_body_bytes m) = gzip_compress payload)
    by (rewrite Hb; now apply carve_stub).
  pose proof (find_head _ _ _ Hmagic) as Hk.
  rewrite <- Hcarve in Hk, Hread.
  change (carve (original_body_bytes m))
    with (skipn 0 (carve (original_body_bytes m))) in Hread at 1.
  pose proof (main_inflated _ _ _ _ _ Hc
                (signal_in_others _ _ Hjs) Hk Hread) as Hmain.
  rewrite <- Hh in Hmain.
  destruct (process_modified _ _ _ _ Hmain) as (_ & Hd & Hn & _).
  eexists. split; [exact Hd|]. split; [|exact Hn].
  intros h Hin Hnamed. apply filter_In in Hin as [_ Hkeep].
  apply is_content_encoding_iff in Hnamed.
  unfold keep in Hkeep. now rewrite Hnamed in Hkeep.
Qed.

(** The header list of a Rewritten result. *)
Lemma rewritten_header_list (m : message) (headers : list text)
  (body : bytes) :
  decision (run_process m) = Rewritten headers body ->
  exists status_line others,
    original_headers m = status_line :: others
    /\ ((~ decompression_occurred (run_process m)
         /\ headers = rewrite_status status_line :: others)
        \/ (decompression_occurred (run_process m)
            /\ headers
               = filter keep [rewrite_status status_line]
                 ++ filter keep others)).
Proof.
  intros Hd.
  pose proof (main_logic_path
                (original_headers m) (original_body_bytes m)) as P.
  remember (run_main (original_headers m) (original_body_bytes m)) as r
    eqn:Hr.
  symmetry in Hr.
  destruct P as [Hnc | st others Hh Hc Hskip | st others k data Hh Hc Hjs Hk Hread
                | st others k msg Hh Hc Hjs Hk Hread
                | st others k class msg Hh Hc Hjs Hk Hread].
  - destruct (process_not_modified _ _ _ _ Hr) as [_ He].
    destruct (only_prints_unchanged _ _ He) as [Hu _]. congruence.
  - exists st, others. split; [assumption|]. left.
    destruct (skip_cases_rewritten m st others Hh Hc Hskip) as (_ & Hd' & Hn).
    split; [assumption | congruence].
  - exists st, others. split; [assumption|]. right.
    destruct (process_modified _ _ _ _ Hr) as (_ & Hd' & _ & Hcon).
    split.
    + unfold decompression_occurred. rewrite Hcon.
      apply in_or_app. right. simpl. auto.
    + rewrite Hd' in Hd. injection Hd as <- _.
      now rewrite <- filter_app.
  - destruct (process_not_modified _ _ _ _ Hr) as [_ He].
    destruct (only_prints_unchanged _ _ He) as [Hu _]. congruence.
  - destruct (process_raised _ _ _ Hr) as [_ He].
    destruct (only_prints_unchanged _ _ He) as [Hu _]. congruence.
Qed.


(** A failure raised as [IOError] is caught: the method returns, after
    printing the failure line. *)
Lemma caught_failure_returns (m : message) (status_line : text)
  (others : list text) (k : nat) (msg : string) :
  original_headers m = status_line :: others ->
  is_candidate status_line (original_body_bytes m) = true ->
  is_js_target (rewrite_status status_line :: others) = true ->
  find Byte.byte_eq_dec GZIP_MAGIC_NUMBER (carve (original_body_bytes m))
  = Some k ->
  GzipFile_read (skipn k (carve (original_body_bytes m)))
  = Raises (IOError msg) ->
  raised (run_process m) = None
  /\ In (GzipFailed (IOError msg)) (console (run_process m)).
Proof.
  intros Hh Hc Hjs Hk Hr.
  pose proof (main_IOError _ _ _ _ _ Hc Hjs Hk Hr) as Hmain.
  rewrite <- Hh in Hmain.
  destruct (process_not_modified _ _ _ _ Hmain) as [Hraised He].
  destruct (only_prints_unchanged _ _ He) as (_ & _ & Hcon).
  split; [assumption|]. rewrite Hcon.
  apply in_or_app. right. simpl. auto.
Qed.

(** A failure raised as anything else is not: the exception leaves the
    method, and no failure line is printed. *)
Lemma uncaught_failure_escapes (m : message) (status_line : text)
  (others : list text) (k : nat) (class msg : string) :
  original_headers m = status_line :: others ->
  is_candidate status_line (original_body_bytes m) = true ->
  is_js_target (rewrite_status status_line :: others) = true ->
  find Byte.byte_eq_dec GZIP_MAGIC_NUMBER (carve (original_body_bytes m))
  = Some k ->
  GzipFile_read (skipn k (carve (original_body_bytes m)))
  = Raises (OtherException class msg) ->
  raised (run_process m) = Some (OtherException class msg)
  /\ forall e, ~ In (GzipFailed e) (console (run_process m)).
Proof.
  intros Hh Hc Hjs Hk Hr.
  pose proof (main_other_exception _ _ _ _ _ _ Hc Hjs Hk Hr) as Hmain.
  rewrite <- Hh in Hmain.
  destruct (process_raised _ _ _ Hmain) as [Hraised He].
  destruct (only_prints_unchanged _ _ He) as (_ & _ & Hcon).
  split; [assumption|]. intros e. rewrite Hcon. unfold first_prints.
  destruct (html_redirect_search (original_body_bytes m)); simpl;
    intuition discriminate.
Qed.

(** C5.  Frame condition on headers.  In a Rewritten result the header
    lines after the status line are the input's, in their order: all of
    them when no decompression occurred, and those whose name is not
    Content-Encoding (compared without regard to case) when it did.  The
    status line is the only other line that may differ. *)
Theorem header_frame (m : message) (headers : list text) (body : bytes) :
  decision (run_process m) = Rewritten headers body ->
  exists status_line others,
    original_headers m = status_line :: others
    /\ ((~ decompression_occurred (run_process m)
         /\ headers = rewrite_status status_line :: others)
        \/ (decompression_occurred (run_process m)
            /\ headers
               = filter keep [rewrite_status status_line]
                 ++ filter keep others))
    /\ (forall h, keep h = true <-> ~ header_named (str "content-encoding") h).
Proof.
  intros Hd.
  destruct (rewritten_header_list m headers body Hd)
    as (st & others & H1 & H2).
  exists st, others. repeat split; try assumption; apply keep_iff.
Qed.

(** C9.  The notification (cyan highlight, comment and alert with the URL)
    is emitted exactly when the decision is Rewritten; with Unchanged no
    highlight, comment or alert is emitted, whatever happened before. *)
Theorem notification_iff_rewritten (toolFlag : Z) (messageIsRequest : bool)
  (m : message) :
  let o :=
    processHttpMessage TOOL_PROXY GzipFile_read toolFlag messageIsRequest m in
  ((exists headers body, decision o = Rewritten headers body)
   <-> notifications o
       = [ SetHighlight (str "cyan");
           SetComment
             (str "Redirect modified and decompressed for URL: " ++ url m);
           IssueAlert (str "Modified response for URL: " ++ url m) ])
  /\ (decision o = Unchanged -> notifications o = []).
Proof.
  intros o.
  destruct (outcome_shape toolFlag messageIsRequest m)
    as [[out He] | (out & headers & body & He)]; fold o in He.
  - destruct (only_prints_unchanged _ _ He) as (Hd & Hn & _).
    rewrite Hd, Hn. split; [|reflexivity].
    split; [intros (? & ? & ?) |]; discriminate.
  - destruct (rewritten_trace _ _ _ _ _ He) as (Hd & Hn & _).
    rewrite Hd, Hn. split; [|discriminate].
    split; [reflexivity | eauto].
Qed.

(** C10, amended.  A candidate whose status line holds no segment made of
    a space, 3, two digits, a space and a further character is Rewritten
    whenever the decompression stage does not fail, and the substitution
    leaves its status line as it is: the new header list is the original
    one, less the Content-Encoding lines if decompression occurred. *)
Theorem unmatched_status_line_kept (m : message) (status_line : text)
  (others : list text) :
  original_headers m = status_line :: others ->
  is_candidate status_line (original_body_bytes m) = true ->
  ~ has_status_segment status_line ->
  ~ inflation_fails GzipFile_read (status_line :: others)
      (original_body_bytes m) ->
  rewrite_status status_line = status_line
  /\ exists body,
       (~ decompression_occurred (run_process m)
        /\ decision (run_process m) = Rewritten (status_line :: others) body)
       \/ (decompression_occurred (run_process m)
           /\ decision (run_process m)
              = Rewritten (filter keep (status_line :: others)) body).
Proof.
  intros Hh Hc Hseg Hok.
  pose proof (rewrite_status_no_segment _ Hseg) as Hsame.
  split; [assumption|].
  destruct (is_js_target (status_line :: others)) eqn:Hjs.
  - destruct (find Byte.byte_eq_dec GZIP_MAGIC_NUMBER
                (carve (original_body_bytes m))) as [k|] eqn:Hk.
    + destruct (GzipFile_read (skipn k (carve (original_body_bytes m))))
        as [data|e] eqn:Hread.
      * exists data. right.
        rewrite <- Hsame in Hjs.
        pose proof (main_inflated _ _ _ _ _ Hc Hjs Hk Hread) as Hmain.
        rewrite <- Hh, Hsame in Hmain.
        destruct (process_modified _ _ _ _ Hmain) as (_ & Hd & _ & Hcon).
        split; [|assumption].
        unfold decompression_occurred. rewrite Hcon.
        apply in_or_app. right. simpl. auto.
      * exfalso. apply Hok. split; [assumption|]. now exists k, e.
    + exists (carve (original_body_bytes m)). left.
      destruct (skip_cases_rewritten m status_line others Hh Hc
                  (or_intror Hk)) as (_ & Hd & Hn).
      rewrite Hsame in Hd. now split.
  - exists (carve (original_body_bytes m)). left.
    rewrite <- Hsame in Hjs.
    destruct (skip_cases_rewritten m status_line others Hh Hc
                (or_introl Hjs)) as (_ & Hd & Hn).
    rewrite Hsame in Hd. now split.
Qed.
End ExtensionFacts.

(** C8, amended.  A body that does not contain the stub pattern is
    returned unchanged by the Carver, and carving such a body twice gives
    the same result as carving it once. *)
Theorem carve_idempotent_without_stub (body : bytes) :
  ~ contains_stub body ->
  carve body = body /\ carve (carve body) = carve body.
Proof.
  intros H. pose proof (carve_without_stub body H) as E.
  split; [exact E | now rewrite !E].
Qed.

(** More generally, a second pass changes nothing as soon as the first
    one has left no stub behind. *)
Lemma carve_twice (body : bytes) :
  ~ contains_stub (carve body) -> carve (carve body) = carve body.
Proof. apply carve_without_stub. Qed.

(** * Examples *)

Lemma carve_idempotent_without_stub_witness :
  carve js_payload = js_payload
  /\ carve (carve js_payload) = carve js_payload.
Proof.
  apply (carve_idempotent_without_stub js_payload).
  rewrite <- html_redirect_search_iff. vm_compute. discriminate.
Defined.

(** C8 as stated fails on a body with two stubs: each pass removes one. *)
Lemma two_stubs_need_two_passes :
  carve two_stubs = small_stub
  /\ carve (carve two_stubs) = []
  /\ carve (carve two_stubs) <> carve two_stubs.
Proof. vm_compute. repeat split. discriminate. Qed.

Lemma failure_containment_witness :
  decision (run trailing_garbage) = Unchanged
  /\ final_response trailing_garbage (run trailing_garbage)
     = (original_headers trailing_garbage,
        original_body_bytes trailing_garbage)
  /\ notifications (run trailing_garbage) = []
  /\ (forall x, In x (effects (run trailing_garbage)) -> exists d, x = Print d).
Proof.
  apply (failure_containment 4 Gzip.read trailing_garbage
           (str "HTTP/1.1 302 Found")
           [ str "Content-Type: application/x-javascript";
             str "Content-Encoding: gzip";
             str "Location: /app.js" ]
           0 (IOError "Not a gzipped file"));
    vm_compute; reflexivity.
Defined.

(** C2 as stated fails on a status line with a leading space: it has one
    whitespace-delimited token, yet [split(' ', 2)] gives two parts and the
    second starts with 3. *)
Lemma leading_space_is_rewritten :
  original_headers leading_space = [str " 302"]
  /\ length (whitespace_tokens (str " 302")) < 2
  /\ decision (run leading_space) = Rewritten [str " 302"] (padding 1001)
  /\ notifications (run leading_space) = notification_for example_url.
Proof. vm_compute. repeat split. lia. Qed.

Lemma non_candidate_unchanged_witness :
  run scenario_C = {| effects := []; raised := None |}
  /\ decision (run scenario_C) = Unchanged
  /\ notifications (run scenario_C) = []
  /\ final_response scenario_C (run scenario_C)
     = (original_headers scenario_C, original_body_bytes scenario_C).
Proof.
  apply (non_candidate_unchanged 4 Gzip.read scenario_C).
  right. exists (str "HTTP/1.1 200 OK"), [str "Content-Type: text/html"].
  split; [reflexivity|]. right. left. vm_compute. reflexivity.
Defined.

(** C3 at a 302 without reason phrase: the new response still says 302. *)
Lemma status_without_reason_stays_302 :
  is_candidate (str "HTTP/1.1 302") (original_body_bytes no_reason_html) = true
  /\ decision (run no_reason_html)
     = Rewritten [str "HTTP/1.1 302"; str "Content-Type: text/html"]
                 (padding 1001)
  /\ notifications (run no_reason_html) = notification_for example_url.
Proof. vm_compute. repeat split. Qed.

Lemma round_trip_witness :
  exists headers,
    decision (run scenario_A) = Rewritten headers js_payload
    /\ (forall h, In h headers -> ~ header_named (str "content-encoding") h)
    /\ notifications (run scenario_A) = notification_for example_url.
Proof.
  apply (round_trip 4 Gzip.read Gzip.compress scenario_A
           (str "HTTP/1.1 302 Found")
           [ str "Content-Type: application/x-javascript";
             str "Content-Encoding: gzip";
             str "Location: /app.js" ]
           moved_stub js_payload);
    try (vm_compute; reflexivity).
  - exists (b "<h2>Object moved to <a href=/app.js>here</a>.</h2>"
            ++ padding 1000).
    split; vm_compute; reflexivity.
  - exists (str "Content-Type: application/x-javascript").
    split; [now left|]. split; [|vm_compute; reflexivity].
    exists (str "Content-Type"), (str " application/x-javascript").
    split; [reflexivity|]. split; [|reflexivity].
    vm_compute. intuition discriminate.
Defined.

(** Scenario A in full. *)
Lemma scenario_A_result :
  decision (run scenario_A)
  = Rewritten [ str "HTTP/1.1 200 OK";
                str "Content-Type: application/x-javascript";
                str "Location: /app.js" ]
              (b "var x=1;").
Proof. vm_compute. reflexivity. Qed.

Lemma header_frame_witness :
  exists status_line others,
    original_headers scenario_A = status_line :: others
    /\ ((~ decompression_occurred (run scenario_A)
         /\ [ str "HTTP/1.1 200 OK";
              str "Content-Type: application/x-javascript";
              str "Location: /app.js" ]
            = rewrite_status status_line :: others)
        \/ (decompression_occurred (run scenario_A)
            /\ [ str "HTTP/1.1 200 OK";
                 str "Content-Type: application/x-javascript";
                 str "Location: /app.js" ]
               = filter keep [rewrite_status status_line]
                 ++ filter keep others))
    /\ (forall h, keep h = true <-> ~ header_named (str "content-encoding") h).
Proof.
  apply (header_frame 4 Gzip.read scenario_A _ (b "var x=1;")).
  vm_compute. reflexivity.
Defined.

(** C6 at a 302 without reason phrase and with nothing compressed in the
    body: the skip case is taken, and the new response still says 302. *)
Lemma skip_case_without_reason_stays_302 :
  is_js_target (original_headers no_reason_js_plain) = true
  /\ find Byte.byte_eq_dec GZIP_MAGIC_NUMBER
       (carve (original_body_bytes no_reason_js_plain)) = None
  /\ decision (run no_reason_js_plain)
     = Rewritten [ str "HTTP/1.1 302";
                   str "Content-Type: application/x-javascript" ]
                 (padding 1001).
Proof. vm_compute. repeat split. Qed.

(** C7 at a deflate block of the reserved type: the reader raises
    [zlib.error], which [except IOError] does not catch. *)
Lemma corrupt_deflate_escapes :
  raised (run corrupt_deflate)
  = Some (OtherException "zlib.error" "invalid block type")
  /\ console (run corrupt_deflate)
     = [ StatusChanged (str "HTTP/1.1 302 Found"); StubRemoved; GzipFound 0 ].
Proof. vm_compute. split; reflexivity. Qed.

Lemma no_segment_in_302 : ~ has_status_segment (str "HTTP/1.1 302").
Proof.
  intros (before & d1 & d2 & c & after & Hs & _).
  vm_compute in Hs.
  do 12 (destruct before as [|? before];
         [discriminate | injection Hs as _ Hs]).
  destruct before; discriminate.
Qed.

(** C10 as stated fails when the reader raises [IOError]: the decision is
    Unchanged. *)
Lemma unmatched_status_line_failed_inflation :
  is_candidate (str "HTTP/1.1 302")
    (original_body_bytes no_reason_js_garbage) = true
  /\ ~ has_status_segment (str "HTTP/1.1 302")
  /\ original_headers no_reason_js_garbage
     = [ str "HTTP/1.1 302"; str "Content-Type: application/x-javascript" ]
  /\ decision (run no_reason_js_garbage) = Unchanged.
Proof.
  split; [vm_compute; reflexivity|].
  split; [exact no_segment_in_302|].
  split; vm_compute; reflexivity.
Qed.

Lemma unmatched_status_line_kept_witness :
  rewrite_status (str "HTTP/1.1 302") = str "HTTP/1.1 302"
  /\ exists body,
       (~ decompression_occurred (run no_reason_html)
        /\ decision (run no_reason_html)
           = Rewritten [str "HTTP/1.1 302"; str "Content-Type: text/html"]
                       body)
       \/ (decompression_occurred (run no_reason_html)
           /\ decision (run no_reason_html)
              = Rewritten
                  (filter keep
                     [str "HTTP/1.1 302"; str "Content-Type: text/html"])
                  body).
Proof.
  apply (unmatched_status_line_kept 4 Gzip.read no_reason_html
           (str "HTTP/1.1 302") [str "Content-Type: text/html"]).
  - reflexivity.
  - vm_compute. reflexivity.
  - exact no_segment_in_302.
  - intros [Hjs _]. vm_compute in Hjs. discriminate.
Defined.

Lemma notification_iff_rewritten_witness :
  notifications (run scenario_A)
  = [ SetHighlight (str "cyan");
      SetComment
        (str "Redirect modified and decompressed for URL: " ++ example_url);
      IssueAlert (str "Modified response for URL: " ++ example_url) ].
Proof.
  apply (proj1 (notification_iff_rewritten 4 Gzip.read 4 false scenario_A)).
  eexists. eexists. exact scenario_A_result.
Defined.

(** * Further properties of the code *)

(** ** The candidate test (lines 56-59) *)

Lemma partition_Some {A} (eq_dec : forall x y : A, {x = y} + {x <> y})
  (sep : A) (s before after : list A) :
  partition eq_dec sep s = Some (before, after) ->
  s = before ++ sep :: after /\ ~ In sep before.
Proof.
  revert before; induction s as [|c s IH]; intros before; simpl.
  - discriminate.
  - destruct (eq_dec c sep) as [->|Hc].
    + intros [= <- <-]. split; [reflexivity | intros []].
    + destruct (partition eq_dec sep s) as [[p a]|]; [|discriminate].
      intros [= <- <-]. destruct (IH p eq_refl) as [-> Hp].
      split; [reflexivity|]. intros [H|H]; [congruence | contradiction].
Qed.

Lemma partition_app {A} (eq_dec : forall x y : A, {x = y} + {x <> y})
  (sep : A) (before after : list A) :
  ~ In sep before ->
  partition eq_dec sep (before ++ sep :: after) = Some (before, after).
Proof.
  induction before as [|c p IH]; simpl; intros H.
  - destruct (eq_dec sep sep); [reflexivity | contradiction].
  - destruct (eq_dec c sep) as [->|Hc].
    + exfalso. apply H. now left.
    + rewrite IH; [reflexivity|]. intros Hin. apply H. now right.
Qed.

(** The second part of [split(' ', 2)] starts with 3 exactly when the
    character after the first space is 3. *)
Lemma second_part_starts_with_3 (protocol after : text) :
  ~ In " "%char protocol ->
  let parts := split ascii_dec " "%char 2 (protocol ++ " "%char :: after) in
  1 < length parts
  /\ tstartswith (str "3") (nth 1 parts []) = tstartswith (str "3") after.
Proof.
  intros Hp. simpl. rewrite (partition_app ascii_dec _ _ _ Hp).
  destruct (partition ascii_dec " "%char after) as [[p a]|] eqn:E.
  - simpl. split; [lia|].
    apply partition_Some in E as [-> _].
    destruct p as [|c p]; reflexivity.
  - simpl. split; [lia | reflexivity].
Qed.

(** X1.  A message is a candidate exactly when its status line has the
    digit 3 right after its first space and its body has more than 1000
    bytes: nothing else of the status line is looked at. *)
Theorem is_candidate_iff (status_line : text) (body : bytes) :
  is_candidate status_line body = true
  <-> (exists protocol rest,
         ~ In " "%char protocol
         /\ status_line = protocol ++ " "%char :: "3"%char :: rest)
      /\ 1000 < length body.
Proof.
  split.
  - intros H. apply is_candidate_true in H as (Hlen & H3 & Hb).
    split; [|assumption].
    destruct (partition ascii_dec " "%char status_line) as [[p a]|] eqn:E.
    + destruct (partition_Some _ _ _ _ _ E) as [-> Hp].
      destruct (second_part_starts_with_3 p a Hp) as [_ Heq].
      cbv zeta in Heq. rewrite Heq in H3.
      apply startswith_iff in H3 as [rest ->].
      now exists p, rest.
    + exfalso. simpl in Hlen. rewrite E in Hlen. simpl in Hlen. lia.
  - intros [(p & rest & Hp & ->) Hb].
    destruct (second_part_starts_with_3 p ("3"%char :: rest) Hp)
      as [Hlen Heq].
    cbv zeta in Hlen, Heq. unfold is_candidate. cbv zeta.
    apply Nat.ltb_lt in Hlen, Hb. now rewrite Hlen, Heq, Hb.
Qed.

(** ** The status-line substitution (line 65) *)

Lemma rest_of_line_split (s : text) :
  exists line,
    s = line ++ rest_of_line s
    /\ ~ In newline line
    /\ (rest_of_line s = [] \/ exists r, rest_of_line s = newline :: r).
Proof.
  induction s as [|c s (line & Hs & Hline & Hrest)]; simpl.
  - exists []. repeat split; auto.
  - destruct (Ascii.eqb_spec c newline) as [->|Hc].
    + exists []. repeat split; auto. right. now exists s.
    + exists (c :: line). split; [simpl; now rewrite <- Hs|].
      split; [|assumption]. intros [H|H]; [congruence | contradiction].
Qed.

(** X2.  The substitution either finds no match and returns the line as
    it is, or replaces exactly one segment: the leftmost place where a
    space, 3, two digits, a space and a character other than a line break
    follow each other, up to the end of that line.  What precedes the
    segment and what follows the line are kept. *)
Theorem status_substitution_cases (status_line : text) :
  (rewrite_status status_line = status_line
   /\ forall i, match_status_here (skipn i status_line) = None)
  \/ (exists before d1 d2 c line rest,
        status_line
        = before ++ " "%char :: "3"%char :: d1 :: d2 :: " "%char :: c
                 :: line ++ rest
        /\ is_digit d1 = true /\ is_digit d2 = true
        /\ c <> newline /\ ~ In newline line
        /\ (rest = [] \/ exists r, rest = newline :: r)
        /\ (forall i, i < length before ->
                      match_status_here (skipn i status_line) = None)
        /\ rewrite_status status_line = before ++ str " 200 OK" ++ rest).
Proof.
  induction status_line as [|x s IH]; rewrite rewrite_status_unfold.
  - left. split; [reflexivity|]. intros i. now rewrite skipn_nil.
  - destruct (match_status_here (x :: s)) as [r|] eqn:E.
    + right.
      destruct (match_status_here_Some _ _ E)
        as (d1 & d2 & c & after & Hs & H1 & H2 & Hc & ->).
      destruct (rest_of_line_split after) as (line & Hafter & Hline & Hrest).
      exists [], d1, d2, c, line, (rest_of_line after).
      rewrite Hs. simpl app. rewrite <- Hafter.
      repeat split; try assumption. simpl. lia.
    + destruct IH as [[Hsame Hnone] | (before & d1 & d2 & c & line & rest
                        & Hs & H1 & H2 & Hc & Hline & Hrest & Hleft & Hrw)].
      * left. split; [now rewrite Hsame|].
        intros [|i]; [exact E | apply Hnone].
      * right. exists (x :: before), d1, d2, c, line, rest.
        rewrite Hs at 1. rewrite Hrw.
        repeat split; try assumption.
        intros [|i] Hi; [exact E|]. apply Hleft. simpl in Hi. lia.
Qed.

Lemma keep_without_colon (h : text) : ~ In ":"%char h -> keep h = true.
Proof.
  intros H. apply keep_iff. intros (n & value & -> & _).
  apply H, in_or_app. right. now left.
Qed.

(** X3.  A second pass does nothing.  When a response with a well-formed
    3xx status line (a protocol without space or colon, a space, 3 and two
    digits, a space, a reason phrase that is not empty and holds no line
    break) is Rewritten, the message the host then holds is no candidate
    any more: processing it again emits nothing. *)
Theorem second_pass_unchanged (TOOL_PROXY : Z)
  (GzipFile_read : bytes -> read_result) (m : message)
  (protocol reason : text) (d1 d2 : ascii) (others : list text) :
  original_headers m
  = (protocol ++ " "%char :: "3"%char :: d1 :: d2 :: " "%char :: reason)
    :: others ->
  ~ In " "%char protocol -> ~ In ":"%char protocol ->
  is_digit d1 = true -> is_digit d2 = true ->
  reason <> [] -> ~ In newline reason ->
  (exists headers body,
     decision (process TOOL_PROXY GzipFile_read m) = Rewritten headers body) ->
  process TOOL_PROXY GzipFile_read
    (installed m (process TOOL_PROXY GzipFile_read m))
  = {| effects := []; raised := None |}.
Proof.
  intros Hh Hsp Hcolon H1 H2 Hr Hn (headers & body & Hd).
  destruct (rewritten_header_list _ _ m headers body Hd)
    as (st & others' & Hh' & Hcases).
  rewrite Hh in Hh'. injection Hh' as <- <-.
  rewrite (rewrite_status_well_formed _ _ _ _ Hsp H1 H2 Hr Hn) in Hcases.
  assert (Hkeep : keep (protocol ++ str " 200 OK") = true).
  { apply keep_without_colon. intros Hin. apply in_app_or in Hin as [Hin|Hin].
    - contradiction.
    - vm_compute in Hin. intuition discriminate. }
  assert (Hhead : exists tail, headers = (protocol ++ str " 200 OK") :: tail).
  { destruct Hcases as [[_ ->] | [_ ->]]; [eauto|].
    cbn [filter]. rewrite Hkeep. eexists. reflexivity. }
  destruct Hhead as [tail ->].
  rewrite process_unfold. unfold installed, final_response. rewrite Hd.
  simpl original_headers. simpl original_body_bytes.
  rewrite main_not_candidate; [reflexivity|].
  apply is_candidate_false. right. left.
  destruct (second_part_starts_with_3 protocol (str "200 OK") Hsp) as [_ Heq].
  exact Heq.
Qed.

(** ** The Carver (lines 70-73) *)

Section FirstMatch.
Context {A : Type}.
Variable eq_dec : forall x y : A, {x = y} + {x <> y}.
Variables lit1 lit2 : list A.

Lemma startswith_shrink (p s t : list A) :
  startswith eq_dec p (s ++ t) = true -> length p <= length s ->
  startswith eq_dec p s = true.
Proof.
  intros H Hlen. destruct (startswith eq_dec p s) eqn:E; [reflexivity|].
  now rewrite (startswith_grow_false eq_dec p s t E Hlen) in H.
Qed.

Lemma find_shrink (sub s t : list A) (k : nat) :
  find eq_dec sub (s ++ t) = Some k -> k + length sub <= length s ->
  find eq_dec sub s = Some k.
Proof.
  revert k; induction s as [|c s IH]; intros k; rewrite find_unfold.
  - simpl app. intros _ Hlen. simpl in Hlen.
    assert (k = 0) as -> by lia.
    apply find_head. destruct sub; [reflexivity | simpl in Hlen; lia].
  - simpl app.
    destruct (startswith eq_dec sub (c :: s ++ t)) eqn:E.
    + intros [= <-] Hlen. apply find_head.
      apply (startswith_shrink sub (c :: s) t E). simpl in *. lia.
    + destruct (find eq_dec sub (s ++ t)) as [j|] eqn:Ej; [|discriminate].
      intros [= <-] Hlen. rewrite find_unfold.
      destruct (startswith eq_dec sub (c :: s)) eqn:E'.
      * pose proof (startswith_grow eq_dec sub (c :: s) t E') as E''.
        simpl app in E''. congruence.
      * rewrite (IH j eq_refl); [reflexivity|]. simpl in Hlen. lia.
Qed.

Lemma find_Some_startswith (sub s : list A) (k : nat) :
  find eq_dec sub s = Some k -> startswith eq_dec sub (skipn k s) = true.
Proof.
  intros H. destruct (find_Some _ _ _ _ H) as (pre & post & -> & <-).
  rewrite skipn_length_app. apply startswith_app.
Qed.

(** A match at the head ends at the first occurrence of the second
    literal. *)
Lemma match_here_shortest (s rest : list A) :
  match_here eq_dec lit1 lit2 s = Some rest ->
  exists interior,
    s = lit1 ++ interior ++ lit2 ++ rest
    /\ find eq_dec lit2 (interior ++ lit2) = Some (length interior).
Proof.
  unfold match_here.
  destruct (startswith eq_dec lit1 s) eqn:E1; [|discriminate].
  rewrite after_first_find.
  destruct (find eq_dec lit2 (skipn (length lit1) s)) as [k|] eqn:E2;
    [|discriminate].
  intros [= <-].
  pose proof (startswith_skipn _ _ _ E1) as Hhead.
  destruct (find_Some _ _ _ _ E2) as (pre & post & Hs & Hk).
  exists pre. subst k. rewrite Hs in Hhead, E2 |- *.
  replace (length pre + length lit2) with (length (pre ++ lit2))
    by (now rewrite length_app).
  rewrite (app_assoc pre lit2 post), skipn_length_app.
  split; [exact Hhead|].
  rewrite (app_assoc pre lit2 post) in E2.
  apply (find_shrink _ _ _ _ E2). rewrite length_app. lia.
Qed.

(** No match at the head although the first literal is there: the second
    literal does not follow anywhere. *)
Lemma match_here_None_head (s : list A) :
  match_here eq_dec lit1 lit2 s = None ->
  startswith eq_dec lit1 s = true ->
  forall pre post, skipn (length lit1) s <> pre ++ lit2 ++ post.
Proof.
  unfold match_here. intros H E. rewrite E, after_first_find in H.
  destruct (find eq_dec lit2 (skipn (length lit1) s)) eqn:Ef;
    [discriminate|].
  exact (find_None eq_dec _ _ Ef).
Qed.

(** When the search succeeds, the substitution deletes one occurrence of
    the pattern: the one that starts at the first occurrence of the first
    literal and ends at the first occurrence of the second one after it. *)
Lemma regex_sub_first_match (s : list A) :
  regex_search eq_dec lit1 lit2 s = true ->
  exists before interior after,
    s = before ++ lit1 ++ interior ++ lit2 ++ after
    /\ find eq_dec lit1 s = Some (length before)
    /\ find eq_dec lit2 (interior ++ lit2) = Some (length interior)
    /\ regex_sub_empty eq_dec lit1 lit2 s = before ++ after.
Proof.
  induction s as [|c s IH];
    rewrite regex_search_unfold, regex_sub_empty_unfold.
  - destruct (match_here eq_dec lit1 lit2 []) as [r|] eqn:E; [|discriminate].
    intros _. destruct (match_here_shortest _ _ E) as (mid & Hs & Hmid).
    exists [], mid, r. repeat split; try assumption.
    apply find_head, startswith_iff. eexists. exact Hs.
  - destruct (match_here eq_dec lit1 lit2 (c :: s)) as [r|] eqn:E.
    + intros _. destruct (match_here_shortest _ _ E) as (mid & Hs & Hmid).
      exists [], mid, r. repeat split; try assumption.
      apply find_head, startswith_iff. eexists. exact Hs.
    + intros H.
      destruct (IH H) as (before & mid & after & Hs & Hfirst & Hmid & Hsub).
      exists (c :: before), mid, after.
      split; [simpl; now rewrite Hs at 1|].
      split; [|split; [assumption | simpl; now rewrite Hsub]].
      rewrite find_unfold, Hfirst.
      destruct (startswith eq_dec lit1 (c :: s)) eqn:E1; [|reflexivity].
      exfalso.
      apply (match_here_None_head _ E E1
               (skipn (length lit1) (c :: before ++ lit1 ++ mid)) after).
      pose proof (startswith_length _ _ _ E1) as Hlen.
      rewrite Hs at 1.
      replace (c :: before ++ lit1 ++ mid ++ lit2 ++ after)
        with ((c :: before ++ lit1 ++ mid) ++ lit2 ++ after)
        by (simpl; now rewrite <- !app_assoc).
      rewrite skipn_app.
      replace (length lit1 - length (c :: before ++ lit1 ++ mid)) with 0;
        [reflexivity|].
      simpl. rewrite !length_app. lia.
Qed.
End FirstMatch.

(** X4.  When the body contains the stub pattern, the Carver deletes
    exactly one occurrence and keeps the bytes around it: the occurrence
    that starts at the first opening sequence of the body and ends at the
    first closing sequence after it. *)
Theorem carve_removes_leftmost_stub (body : bytes) :
  contains_stub body ->
  exists before interior after,
    body = before ++ STUB_OPEN ++ interior ++ STUB_CLOSE ++ after
    /\ find Byte.byte_eq_dec STUB_OPEN body = Some (length before)
    /\ find Byte.byte_eq_dec STUB_CLOSE (interior ++ STUB_CLOSE)
       = Some (length interior)
    /\ carve body = before ++ after.
Proof.
  intros H. apply html_redirect_search_iff in H.
  unfold carve. rewrite H. now apply regex_sub_first_match.
Qed.

(** X5.  The Carver never makes a body longer, and a body that contains
    the stub pattern loses at least the 66 bytes of the opening and the
    closing sequence. *)
Theorem carve_shrinks (body : bytes) :
  length (carve body) <= length body
  /\ (contains_stub body -> length (carve body) + 66 <= length body).
Proof.
  assert (H : contains_stub body -> length (carve body) + 66 <= length body).
  { intros Hs. apply html_redirect_search_iff in Hs.
    destruct (regex_sub_first_match Byte.byte_eq_dec STUB_OPEN STUB_CLOSE
                body Hs) as (before & mid & after & Hb & _ & _ & Hsub).
    unfold carve. rewrite Hs.
    unfold html_redirect_sub. rewrite Hsub. rewrite Hb at 1.
    rewrite !length_app.
    change (length STUB_OPEN) with 52. change (length STUB_CLOSE) with 14.
    lia. }
  split; [|exact H].
  destruct (html_redirect_search body) eqn:E.
  - apply html_redirect_search_iff in E. specialize (H E). lia.
  - unfold carve. now rewrite E.
Qed.

(** ** The decompression stage (lines 76-105) *)

(** X8.  The reader is only ever handed bytes that start with the magic
    number 1f 8b: two readers that agree on such data give the same run,
    for every message. *)
Theorem reader_gets_magic_prefixed_data (TOOL_PROXY : Z)
  (read1 read2 : bytes -> read_result) (toolFlag : Z)
  (messageIsRequest : bool) (m : message) :
  (forall data,
     startswith Byte.byte_eq_dec GZIP_MAGIC_NUMBER data = true ->
     read1 data = read2 data) ->
  processHttpMessage TOOL_PROXY read1 toolFlag messageIsRequest m
  = processHttpMessage TOOL_PROXY read2 toolFlag messageIsRequest m.
Proof.
  intros Hagree. unfold processHttpMessage.
  destruct (negb messageIsRequest && (toolFlag =? TOOL_PROXY)%Z);
    [|reflexivity].
  enough (E : main_logic read1 (original_headers m) (original_body_bytes m)
              = main_logic read2 (original_headers m) (original_body_bytes m))
    by now rewrite E.
  unfold main_logic.
  destruct (original_headers m) as [|status_line others]; [reflexivity|].
  destruct (is_candidate status_line (original_body_bytes m)); [|reflexivity].
  destruct (is_js_target (rewrite_status status_line :: others));
    [|reflexivity].
  unfold decompress_js.
  destruct (find Byte.byte_eq_dec GZIP_MAGIC_NUMBER
              (carve (original_body_bytes m))) as [k|] eqn:Hk;
    [|reflexivity].
  now rewrite (Hagree _ (find_Some_startswith _ _ _ _ Hk)).
Qed.

(** X9.  An exception that leaves the method is never an [IOError]; it
    comes from the reader, after the line announcing the GZIP data was
    printed, and the message is left as it was: no new response, no
    highlight, comment or alert. *)
Theorem escaping_exception (TOOL_PROXY : Z)
  (GzipFile_read : bytes -> read_result) (toolFlag : Z)
  (messageIsRequest : bool) (m : message) (e : exception) :
  let o :=
    processHttpMessage TOOL_PROXY GzipFile_read toolFlag messageIsRequest m in
  raised o = Some e ->
  (exists class msg, e = OtherException class msg)
  /\ (exists k, In (GzipFound k) (console o)
                /\ GzipFile_read (skipn k (carve (original_body_bytes m)))
                   = Raises e)
  /\ decision o = Unchanged
  /\ notifications o = [].
Proof.
  unfold processHttpMessage.
  destruct (negb messageIsRequest && (toolFlag =? TOOL_PROXY)%Z);
    [|discriminate].
  pose proof (main_logic_path GzipFile_read
                (original_headers m) (original_body_bytes m)) as P.
  destruct P as [Hnc | st others Hh Hc Hskip | st others k data Hh Hc Hjs Hk Hread
                | st others k msg Hh Hc Hjs Hk Hread
                | st others k class msg Hh Hc Hjs Hk Hread];
    cbv zeta; simpl raised; try discriminate.
  intros [= <-]. simpl effects.
  split; [eauto|].
  match goal with
  | |- context [ {| effects := map Print ?out; raised := ?r |} ] =>
      destruct (only_prints_unchanged
                  {| effects := map Print out; raised := r |} out eq_refl)
        as (Hd & Hn & Hcon)
  end.
  split; [|split; assumption].
  exists k. rewrite Hcon. split; [|assumption].
  apply in_or_app. right. now left.
Qed.

(** ** The trace of one call (lines 39-124) *)


(** ** The content-type loop (lines 76-80) *)

(** X11.  The loop finds the JavaScript signal exactly when one line of
    the list has the name Content-Type and holds application/x-javascript,
    both compared without regard to case. *)
Theorem js_signal_iff (headers : list text) :
  is_js_target headers = true
  <-> exists h,
        In h headers
        /\ header_named (str "content-type") h
        /\ tcontains (str "application/x-javascript") (lower h) = true.
Proof.
  unfold is_js_target. rewrite existsb_exists.
  split; intros (h & Hin & H); exists h; (split; [assumption|]).
  - now apply is_content_type_js_iff.
  - apply is_content_type_js_iff. exact H.
Qed.

Lemma no_signal_without_colon (h : text) :
  ~ In ":"%char h -> is_content_type_js h = false.
Proof.
  intros H. destruct (is_content_type_js h) eqn:E; [|reflexivity].
  apply is_content_type_js_iff in E as [(n & value & -> & _) _].
  exfalso. apply H, in_or_app. right. now left.
Qed.

(** ** Whole messages *)

(** X12.  The size test looks at the body before the stub is removed: a
    candidate whose body is nothing but a stub, and whose inspected header
    list carries no JavaScript signal, is Rewritten with an empty body. *)
Theorem stub_only_body_becomes_empty (TOOL_PROXY : Z)
  (GzipFile_read : bytes -> read_result) (m : message)
  (status_line : text) (others : list text) :
  original_headers m = status_line :: others ->
  is_candidate status_line (original_body_bytes m) = true ->
  is_stub (original_body_bytes m) ->
  is_js_target (rewrite_status status_line :: others) = false ->
  1000 < length (original_body_bytes m)
  /\ decision (process TOOL_PROXY GzipFile_read m)
     = Rewritten (rewrite_status status_line :: others) [].
Proof.
  intros Hh Hc Hstub Hjs.
  split; [now apply is_candidate_true in Hc|].
  destruct (skip_cases_rewritten TOOL_PROXY GzipFile_read m status_line others
              Hh Hc (or_introl Hjs)) as (_ & Hd & _).
  rewrite Hd. f_equal.
  rewrite <- (app_nil_r (original_body_bytes m)). now apply carve_stub.
Qed.

(** X13.  For a response with a well-formed 3xx status line (a protocol
    without space or colon, a space, 3 and two digits, a space, a reason
    phrase that is not empty and holds no line break), a body of more than
    1000 bytes without stub, and no JavaScript Content-Type line, the only
    change is the status line: it becomes the protocol followed by 200 OK,
    the other header lines (Content-Encoding included) and the body are
    the original ones, and the notification is emitted. *)
Theorem only_status_line_changes (TOOL_PROXY : Z)
  (GzipFile_read : bytes -> read_result) (m : message)
  (protocol reason : text) (d1 d2 : ascii) (others : list text) :
  original_headers m
  = (protocol ++ " "%char :: "3"%char :: d1 :: d2 :: " "%char :: reason)
    :: others ->
  ~ In " "%char protocol -> ~ In ":"%char protocol ->
  is_digit d1 = true -> is_digit d2 = true ->
  reason <> [] -> ~ In newline reason ->
  1000 < length (original_body_bytes m) ->
  ~ contains_stub (original_body_bytes m) ->
  is_js_target others = false ->
  decision (process TOOL_PROXY GzipFile_read m)
  = Rewritten ((protocol ++ str " 200 OK") :: others) (original_body_bytes m)
  /\ notifications (process TOOL_PROXY GzipFile_read m)
     = notification_for (url m).
Proof.
  intros Hh Hsp Hcolon H1 H2 Hr Hn Hlen Hstub Hjs.
  pose proof (rewrite_status_well_formed _ _ _ _ Hsp H1 H2 Hr Hn) as Hrw.
  assert (Hc : is_candidate
                 (protocol ++ " "%char :: "3"%char :: d1 :: d2 :: " "%char
                           :: reason)
                 (original_body_bytes m) = true).
  { destruct (second_part_starts_with_3 protocol
                ("3"%char :: d1 :: d2 :: " "%char :: reason) Hsp)
      as [Hparts H3].
    cbv zeta in Hparts, H3. unfold is_candidate. cbv zeta.
    apply Nat.ltb_lt in Hparts, Hlen. now rewrite Hparts, H3, Hlen. }
  assert (Hjs' : is_js_target ((protocol ++ str " 200 OK") :: others) = false).
  { unfold is_js_target in *. simpl existsb. rewrite Hjs.
    rewrite no_signal_without_colon; [reflexivity|].
    intros Hin. apply in_app_or in Hin as [Hin|Hin]; [contradiction|].
    vm_compute in Hin. intuition discriminate. }
  rewrite <- Hrw in Hjs'.
  pose proof (main_no_signal GzipFile_read _ _ _ Hc Hjs') as Hmain.
  rewrite Hrw, (carve_without_stub _ Hstub) in Hmain.
  assert (Hmain' :
    main_logic GzipFile_read (original_headers m) (original_body_bytes m)
    = (first_prints
         (protocol ++ " "%char :: "3"%char :: d1 :: d2 :: " "%char :: reason)
         (original_body_bytes m),
       inr {| new_headers := (protocol ++ str " 200 OK") :: others;
              new_body := original_body_bytes m;
              modified := true |}))
    by (rewrite Hh; exact Hmain).
  destruct (process_modified TOOL_PROXY GzipFile_read _ _ _ _ Hmain')
    as (_ & Hd & Hnote & _).
  now split.
Qed.

(** ** Examples for the further properties *)

Ltac not_in_literal := vm_compute; intuition discriminate.

Lemma second_pass_unchanged_witness :
  process 4 Gzip.read (installed scenario_A (process 4 Gzip.read scenario_A))
  = {| effects := []; raised := None |}.
Proof.
  apply (second_pass_unchanged 4 Gzip.read scenario_A
           (str "HTTP/1.1") (str "Found") "0"%char "2"%char
           [ str "Content-Type: application/x-javascript";
             str "Content-Encoding: gzip";
             str "Location: /app.js" ]);
    try reflexivity; try not_in_literal.
  eexists. eexists. exact scenario_A_result.
Defined.

Lemma carve_removes_leftmost_stub_witness :
  exists before interior after,
    two_stubs = before ++ STUB_OPEN ++ interior ++ STUB_CLOSE ++ after
    /\ find Byte.byte_eq_dec STUB_OPEN two_stubs = Some (length before)
    /\ find Byte.byte_eq_dec STUB_CLOSE (interior ++ STUB_CLOSE)
       = Some (length interior)
    /\ carve two_stubs = before ++ after.
Proof.
  apply (carve_removes_leftmost_stub two_stubs).
  apply html_redirect_search_iff. vm_compute. reflexivity.
Defined.

Lemma carve_shrinks_witness : length (carve two_stubs) + 66 <= length two_stubs.
Proof.
  apply (proj2 (carve_shrinks two_stubs)).
  apply html_redirect_search_iff. vm_compute. reflexivity.
Defined.



Lemma reader_gets_magic_prefixed_data_witness :
  processHttpMessage 4 Gzip.read 4 false scenario_A
  = processHttpMessage 4 strict_read 4 false scenario_A.
Proof.
  apply (reader_gets_magic_prefixed_data 4 Gzip.read strict_read 4 false
           scenario_A).
  intros data H. unfold strict_read. now rewrite H.
Defined.

Lemma escaping_exception_witness :
  (exists class msg,
     OtherException "zlib.error" "invalid block type"
     = OtherException class msg)
  /\ (exists k,
        In (GzipFound k)
           (console (processHttpMessage 4 Gzip.read 4 false corrupt_deflate))
        /\ Gzip.read (skipn k (carve (original_body_bytes corrupt_deflate)))
           = Raises (OtherException "zlib.error" "invalid block type"))
  /\ decision (processHttpMessage 4 Gzip.read 4 false corrupt_deflate)
     = Unchanged
  /\ notifications (processHttpMessage 4 Gzip.read 4 false corrupt_deflate)
     = [].
Proof.
  apply (escaping_exception 4 Gzip.read 4 false corrupt_deflate
           (OtherException "zlib.error" "invalid block type")).
  vm_compute. reflexivity.
Defined.

Lemma stub_only_body_becomes_empty_witness :
  1000 < length (original_body_bytes stub_only)
  /\ decision (process 4 Gzip.read stub_only)
     = Rewritten
         (rewrite_status (str "HTTP/1.1 302 Found")
          :: [str "Content-Type: text/html"])
         [].
Proof.
  apply (stub_only_body_becomes_empty 4 Gzip.read stub_only
           (str "HTTP/1.1 302 Found") [str "Content-Type: text/html"]);
    try (vm_compute; reflexivity).
  exists (b "<h2>Object moved to <a href=/app.js>here</a>.</h2>"
          ++ padding 1000).
  split; vm_compute; reflexivity.
Defined.

Lemma only_status_line_changes_witness :
  decision (process 4 Gzip.read plain_redirect)
  = Rewritten
      ((str "HTTP/1.1" ++ str " 200 OK")
       :: [str "Content-Type: text/html"; str "Content-Encoding: gzip"])
      (original_body_bytes plain_redirect)
  /\ notifications (process 4 Gzip.read plain_redirect)
     = notification_for (url plain_redirect).
Proof.
  apply (only_status_line_changes 4 Gzip.read plain_redirect
           (str "HTTP/1.1") (str "Moved Permanently") "0"%char "1"%char
           [str "Content-Type: text/html"; str "Content-Encoding: gzip"]);
    try reflexivity; try not_in_literal.
  - vm_compute. lia.
  - rewrite <- html_redirect_search_iff. vm_compute. discriminate.
Defined.

(** X14.  When a response is rewritten.  The decision for a proxied
    response is Rewritten exactly when the message has a status line, the
    candidate test holds, and the decompression stage does not fail on the
    header list with the substituted status line (it is not the case that
    the signal is there, the magic number is found in the carved body and
    the reader raises). *)
Theorem rewritten_iff (TOOL_PROXY : Z) (GzipFile_read : bytes -> read_result)
  (m : message) :
  (exists headers body,
     decision (process TOOL_PROXY GzipFile_read m) = Rewritten headers body)
  <-> exists status_line others,
        original_headers m = status_line :: others
        /\ is_candidate status_line (original_body_bytes m) = true
        /\ ~ inflation_fails GzipFile_read
               (rewrite_status status_line :: others)
               (original_body_bytes m).
Proof.
  pose proof (main_logic_path GzipFile_read
                (original_headers m) (original_body_bytes m)) as P.
  remember (main_logic GzipFile_read
              (original_headers m) (original_body_bytes m)) as r eqn:Hr.
  symmetry in Hr.
  assert (Hfail : forall st others k e,
    original_headers m = st :: others ->
    is_js_target (rewrite_status st :: others) = true ->
    find Byte.byte_eq_dec GZIP_MAGIC_NUMBER (carve (original_body_bytes m))
    = Some k ->
    GzipFile_read (skipn k (carve (original_body_bytes m))) = Raises e ->
    forall st' others',
      original_headers m = st' :: others' ->
      ~ ~ inflation_fails GzipFile_read (rewrite_status st' :: others')
            (original_body_bytes m)).
  { intros st others k e Hh Hjs Hk Hread st' others' Hh' Hnot.
    rewrite Hh in Hh'. injection Hh' as <- <-.
    apply Hnot. split; [assumption|]. now exists k, e. }
  destruct P as [Hnc | st others Hh Hc Hskip | st others k data Hh Hc Hjs Hk Hread
                | st others k msg Hh Hc Hjs Hk Hread
                | st others k class msg Hh Hc Hjs Hk Hread].
  - destruct (process_not_modified TOOL_PROXY _ _ _ _ _ Hr) as [_ He].
    destruct (only_prints_unchanged _ _ He) as [Hu _].
    split.
    + intros (hs & bd & Hd). congruence.
    + intros (st & others & Hh & Hc & _).
      destruct Hnc as [Hnil | (st' & others' & Hh' & Hc')]; [congruence|].
      rewrite Hh in Hh'. injection Hh' as <- <-. congruence.
  - destruct (skip_cases_rewritten TOOL_PROXY GzipFile_read m st others
                Hh Hc Hskip) as (_ & Hd & _).
    split; [|eauto].
    intros _. exists st, others. repeat split; try assumption.
    intros [Hjs (k & e & Hk & _)].
    destruct Hskip; congruence.
  - destruct (process_modified TOOL_PROXY _ _ _ _ _ Hr) as (_ & Hd & _).
    split; [|eauto].
    intros _. exists st, others. repeat split; try assumption.
    intros [_ (k' & e & Hk' & Hread')].
    rewrite Hk in Hk'. injection Hk' as <-. congruence.
  - destruct (process_not_modified TOOL_PROXY _ _ _ _ _ Hr) as [_ He].
    destruct (only_prints_unchanged _ _ He) as [Hu _].
    split.
    + intros (hs & bd & Hd). congruence.
    + intros (st' & others' & Hh' & _ & Hnot). exfalso.
      exact (Hfail _ _ _ _ Hh Hjs Hk Hread _ _ Hh' Hnot).
  - destruct (process_raised TOOL_PROXY _ _ _ _ Hr) as [_ He].
    destruct (only_prints_unchanged _ _ He) as [Hu _].
    split.
    + intros (hs & bd & Hd). congruence.
    + intros (st' & others' & Hh' & _ & Hnot). exfalso.
      exact (Hfail _ _ _ _ Hh Hjs Hk Hread _ _ Hh' Hnot).
Qed.
